(** * Lead scorer: a shallow embedding of [lead_scorer.py]

    The Python module scores customer inquiries by asking a language model
    for a JSON verdict, aggregates a batch of verdicts, and dumps the batch
    to a file.  This development embeds the three operations
    ([score_lead], [score_multiple_leads], [save_lead_scores]) and the
    module-level credential lookup ([api_key]) as Rocq functions over a
    model of the Python values they manipulate, and proves the properties
    the specification states about them.

    Conventions.
    - A Python [str] is a [string]; each character stands for one code
      point below 256.
    - A Python [int] is a [Z]; a Python [float] is a [spec_float] read at
      binary64 ([prec = 53], [emax = 1024]).
    - A Python [dict] with string keys is an association list in insertion
      order ([dict]); [os.environ] and the file system are [gmap]s.
    - An operation that may raise returns [except A].
    - The collaborators the module does not define (the inference client,
      [json.loads], [json.dumps], the clock, [open]) are the fields of
      [world]; console output is not modelled. *)

From Stdlib Require Import ZArith Ascii String List Bool Lia Permutation Sorted.
From Stdlib Require Import SpecFloat DecimalString.
From stdpp Require Import base option list gmap strings.

Local Open Scope Z_scope.
Local Open Scope nat_scope.
Set Warnings "-register-all".

(** Linear arithmetic with division and remainder by constants. *)
Ltac n_arith := zify; Z.to_euclidean_division_equations; lia.

(* ===================================================================== *)
(** * Python values, exceptions *)
(* ===================================================================== *)

Inductive exn : Type :=
  | JSONDecodeError (msg : string)
  | TypeError (msg : string)
  | OverflowError (msg : string)
  | IndexError (msg : string)
  | ValueError (msg : string)
  | OSError (msg : string)
  | ZeroDivisionError (msg : string)
  | APIError (msg : string).  (* anything the inference client raises *)

(** [str(e)] *)
Definition exn_str (e : exn) : string :=
  match e with
  | JSONDecodeError m | TypeError m | OverflowError m | IndexError m
  | ValueError m | OSError m | ZeroDivisionError m | APIError m => m
  end.

Definition is_json_decode_error (e : exn) : bool :=
  match e with JSONDecodeError _ => true | _ => false end.

Inductive except (A : Type) : Type :=
  | Ok (a : A)
  | Raise (e : exn).
Arguments Ok {A} a.
Arguments Raise {A} e.

Definition except_bind {A B} (f : A -> except B) (m : except A) : except B :=
  match m with Ok a => f a | Raise e => Raise e end.

#[global] Instance except_ret : MRet except := fun _ a => Ok a.
#[global] Instance except_mbind : MBind except := fun _ _ f m => except_bind f m.
#[global] Instance except_fmap : FMap except :=
  fun _ _ f m => except_bind (fun a => Ok (f a)) m.

Inductive pyval : Type :=
  | PNone
  | PBool (b : bool)
  | PInt (z : Z)
  | PFloat (f : spec_float)
  | PStr (s : string)
  | PList (l : list pyval)
  | PDict (d : list (string * pyval)).

Abbreviation dict := (list (string * pyval)).

(** [type(v).__name__] *)
Definition type_name (v : pyval) : string :=
  match v with
  | PNone => "NoneType" | PBool _ => "bool" | PInt _ => "int"
  | PFloat _ => "float" | PStr _ => "str" | PList _ => "list"
  | PDict _ => "dict"
  end.

Module Dict.
(** [d.get(k)] as an option; keys are unique in every dict built here. *)
Fixpoint lookup (d : dict) (k : string) : option pyval :=
  match d with
  | [] => None
  | (k', v) :: d' => if String.eqb k k' then Some v else lookup d' k
  end.

(** [d.get(k, default)] *)
Definition get (d : dict) (k : string) (default : pyval) : pyval :=
  match lookup d k with Some v => v | None => default end.

(** [d[k] = v]: an existing key keeps its position, a new one goes last. *)
Fixpoint set (d : dict) (k : string) (v : pyval) : dict :=
  match d with
  | [] => [(k, v)]
  | (k', v') :: d' =>
      if String.eqb k k' then (k', v) :: d' else (k', v') :: set d' k v
  end.
End Dict.

(* ===================================================================== *)
(** * Python strings *)
(* ===================================================================== *)

Module Str.
Definition len (s : string) : nat := String.length s.

(** [str.isspace] on one code point below 256. *)
Definition is_space (c : ascii) : bool :=
  let n := nat_of_ascii c in
  ((9 <=? n) && (n <=? 13)) || ((28 <=? n) && (n <=? 32))
  || (n =? 133) || (n =? 160).

Fixpoint lstrip (s : string) : string :=
  match s with
  | EmptyString => EmptyString
  | String c s' => if is_space c then lstrip s' else s
  end.

Fixpoint rstrip (s : string) : string :=
  match s with
  | EmptyString => EmptyString
  | String c s' =>
      match rstrip s' with
      | EmptyString => if is_space c then EmptyString else String c EmptyString
      | r => String c r
      end
  end.

(** [s.strip()] *)
Definition strip (s : string) : string := rstrip (lstrip s).

(** [s[:n]] *)
Fixpoint take (n : nat) (s : string) : string :=
  match n, s with
  | S n', String c s' => String c (take n' s')
  | _, _ => EmptyString
  end.

(** [s[n:]] *)
Fixpoint drop (n : nat) (s : string) : string :=
  match n, s with
  | S n', String _ s' => drop n' s'
  | _, _ => s
  end.

(** [s.startswith(p)] *)
Fixpoint startswith (p s : string) : bool :=
  match p, s with
  | EmptyString, _ => true
  | String a p', String b s' => Ascii.eqb a b && startswith p' s'
  | String _ _, EmptyString => false
  end.

(** [sub in s] *)
Fixpoint contains (sub s : string) : bool :=
  startswith sub s ||
  match s with
  | EmptyString => false
  | String _ s' => contains sub s'
  end.

(** [s.find(sub)], with [None] for Python's [-1]. *)
Fixpoint find (sub s : string) : option nat :=
  if startswith sub s then Some 0
  else match s with
       | EmptyString => None
       | String _ s' => S <$> find sub s'
       end.

(** [s.split(sep)] for a non-empty [sep]: leftmost, non-overlapping
    matches.  [skip] counts the characters of a matched separator that
    are still to be passed over. *)
Fixpoint split_from (sep : string) (skip : nat) (s : string) : list string :=
  match s with
  | EmptyString => [EmptyString]
  | String c s' =>
      match skip with
      | S k => split_from sep k s'
      | O =>
          if startswith sep s
          then EmptyString :: split_from sep (len sep - 1) s'
          else match split_from sep 0 s' with
               | p :: ps => String c p :: ps
               | [] => [String c EmptyString]
               end
      end
  end.

Definition split (sep s : string) : list string := split_from sep 0 s.

(** [s.split(sep)[0]], as [find] locates it. *)
Definition first_part (sep s : string) : string :=
  match find sep s with
  | Some n => take n s
  | None => s
  end.

(** [parts[i]] *)
Definition index (parts : list string) (i : nat) : except string :=
  match nth_error parts i with
  | Some p => Ok p
  | None => Raise (IndexError "list index out of range")
  end.

(** The double quote character, as a one-character string. *)
Definition dq : string := String (ascii_of_nat 34) EmptyString.

Definition digit (n : N) : string :=
  String (ascii_of_N (48 + n mod 10)) EmptyString.

(** [n] as exactly two, four, six decimal digits (low digits kept). *)
Definition pad2 (n : N) : string := digit (n / 10) +:+ digit n.
Definition pad4 (n : N) : string := pad2 (n / 100) +:+ pad2 n.
Definition pad6 (n : N) : string := pad2 (n / 10000) +:+ pad4 n.

Definition is_digit (c : ascii) : bool :=
  let n := nat_of_ascii c in (48 <=? n) && (n <=? 57).

Fixpoint all_digits (s : string) : bool :=
  match s with
  | EmptyString => true
  | String c s' => is_digit c && all_digits s'
  end.
End Str.

(* ===================================================================== *)
(** * Python numbers, comparison and arithmetic *)
(* ===================================================================== *)

Module Num.
Definition prec : Z := 53%Z.
Definition emax : Z := 1024%Z.

(** The numeric tower of the values [json.loads] produces: [bool] is a
    subclass of [int]. *)
Inductive num : Type :=
  | NInt (z : Z)
  | NFloat (f : spec_float).

Definition of_py (v : pyval) : option num :=
  match v with
  | PBool b => Some (NInt (Z.b2z b))
  | PInt z => Some (NInt z)
  | PFloat f => Some (NFloat f)
  | _ => None
  end.

(** An [int] against a [float], compared exactly as CPython does. *)
Definition cmp_int_float (z : Z) (f : spec_float) : option comparison :=
  match f with
  | S754_nan => None
  | S754_infinity s => Some (if s then Gt else Lt)
  | S754_zero _ => Some (z ?= 0)%Z
  | S754_finite s m e =>
      let v := if s then Z.neg m else Z.pos m in
      Some match e with
           | Z.neg p => (z * 2 ^ Z.pos p ?= v)%Z
           | _ => (z ?= v * 2 ^ e)%Z
           end
  end.

(** [None] when one side is NaN. *)
Definition compare (a b : num) : option comparison :=
  match a, b with
  | NInt x, NInt y => Some (x ?= y)%Z
  | NInt x, NFloat g => cmp_int_float x g
  | NFloat f, NInt y => CompOpp <$> cmp_int_float y f
  | NFloat f, NFloat g => SFcompare f g
  end.

(** [float(z)] *)
Definition float_of_int (z : Z) : except spec_float :=
  match binary_normalize prec emax z 0 false with
  | S754_infinity _ => Raise (OverflowError "int too large to convert to float")
  | f => Ok f
  end.

Definition exact (z : Z) : spec_float :=
  match z with
  | Z0 => S754_zero false
  | Z.pos p => S754_finite false p 0
  | Z.neg p => S754_finite true p 0
  end.

(** [a / b] on two [int]s: the float nearest to the quotient. *)
Definition int_truediv (a b : Z) : except spec_float :=
  if (b =? 0)%Z then Raise (ZeroDivisionError "division by zero")
  else match SFdiv prec emax (exact a) (exact b) with
       | S754_infinity _ =>
           Raise (OverflowError "integer division result too large for a float")
       | f => Ok f
       end.

(** [a / b] on two [float]s *)
Definition float_truediv (f g : spec_float) : except spec_float :=
  match g with
  | S754_zero _ => Raise (ZeroDivisionError "float division by zero")
  | _ => Ok (SFdiv prec emax f g)
  end.
End Num.

(** The rich comparisons the module uses. *)
Inductive cmp_op : Type := OpLt | OpLe | OpGe.

Definition op_symbol (op : cmp_op) : string :=
  match op with OpLt => "<" | OpLe => "<=" | OpGe => ">=" end.

Definition op_holds (op : cmp_op) (c : option comparison) : bool :=
  match op, c with
  | OpLt, Some Lt => true
  | OpLe, Some (Lt | Eq) => true
  | OpGe, Some (Gt | Eq) => true
  | _, _ => false
  end.

(** [a == b] *)
Fixpoint py_eq (a b : pyval) {struct a} : bool :=
  match a, b with
  | PNone, PNone => true
  | PStr s, PStr t => String.eqb s t
  | PList l, PList m =>
      (fix go (l m : list pyval) {struct l} : bool :=
         match l, m with
         | [], [] => true
         | x :: l', y :: m' => py_eq x y && go l' m'
         | _, _ => false
         end) l m
  | PDict d, PDict e =>
      Nat.eqb (length d) (length e) &&
      (fix go (d : dict) {struct d} : bool :=
         match d with
         | [] => true
         | (k, v) :: d' =>
             match Dict.lookup e k with
             | Some w => py_eq v w
             | None => false
             end && go d'
         end) d
  | _, _ =>
      match Num.of_py a, Num.of_py b with
      | Some x, Some y =>
          match Num.compare x y with Some Eq => true | _ => false end
      | _, _ => false
      end
  end.

Definition not_supported (op : cmp_op) (a b : pyval) : exn :=
  TypeError ("'" +:+ op_symbol op +:+ "' not supported between instances of '"
             +:+ type_name a +:+ "' and '" +:+ type_name b +:+ "'").

(** [a op b] for [op] among [<], [<=], [>=] *)
Fixpoint py_compare (op : cmp_op) (a b : pyval) {struct a} : except bool :=
  match a, b with
  | PStr s, PStr t => Ok (op_holds op (Some (String.compare s t)))
  | PList l, PList m =>
      (fix go (l m : list pyval) {struct l} : except bool :=
         match l, m with
         | x :: l', y :: m' => if py_eq x y then go l' m' else py_compare op x y
         | _, _ => Ok (op_holds op (Some (Nat.compare (length l) (length m))))
         end) l m
  | _, _ =>
      match Num.of_py a, Num.of_py b with
      | Some x, Some y => Ok (op_holds op (Num.compare x y))
      | _, _ => Raise (not_supported op a b)
      end
  end.

Definition unsupported_operand (sym : string) (a b : pyval) : exn :=
  TypeError ("unsupported operand type(s) for " +:+ sym +:+ ": '"
             +:+ type_name a +:+ "' and '" +:+ type_name b +:+ "'").

(** [a + b] where [a] is a running numeric total *)
Definition py_add (a b : pyval) : except pyval :=
  match Num.of_py a, Num.of_py b with
  | Some (Num.NInt x), Some (Num.NInt y) => Ok (PInt (x + y))
  | Some (Num.NInt x), Some (Num.NFloat g) =>
      f ← Num.float_of_int x; Ok (PFloat (SFadd Num.prec Num.emax f g))
  | Some (Num.NFloat f), Some (Num.NInt y) =>
      g ← Num.float_of_int y; Ok (PFloat (SFadd Num.prec Num.emax f g))
  | Some (Num.NFloat f), Some (Num.NFloat g) =>
      Ok (PFloat (SFadd Num.prec Num.emax f g))
  | _, _ => Raise (unsupported_operand "+" a b)
  end.

(** [sum(xs)]: the total starts at the [int] 0 and adds left to right.
    (On floats CPython 3.12 and later also compensates the rounding error
    of the additions; no statement below sums floats.) *)
Definition py_sum (xs : list pyval) : except pyval :=
  foldl (fun acc x => a ← acc; py_add a x) (Ok (PInt 0)) xs.

(** [a / b] *)
Definition py_truediv (a b : pyval) : except pyval :=
  match Num.of_py a, Num.of_py b with
  | Some (Num.NInt x), Some (Num.NInt y) => PFloat <$> Num.int_truediv x y
  | Some (Num.NInt x), Some (Num.NFloat g) =>
      f ← Num.float_of_int x; PFloat <$> Num.float_truediv f g
  | Some (Num.NFloat f), Some (Num.NInt y) =>
      g ← Num.float_of_int y; PFloat <$> Num.float_truediv f g
  | Some (Num.NFloat f), Some (Num.NFloat g) => PFloat <$> Num.float_truediv f g
  | _, _ => Raise (unsupported_operand "/" a b)
  end.

(** [l.sort(key=key, reverse=True)].  Python only ever asks [<] of two
    keys.  The model is the stable insertion sort.  On keys that [<] orders
    totally, integers among them, every stable sort returns this list.
    Where it does not, the two part ways: with a NaN among the keys
    CPython's merge sort may leave another order, and on keys of mixed
    types both raise [TypeError], CPython possibly at another pair and with
    the operand types named the other way round.  Either returns a
    rearrangement of its input whenever it returns. *)
Section Sort.
Context {A : Type} (key : A -> pyval).

Fixpoint insert_desc (x : A) (l : list A) : except (list A) :=
  match l with
  | [] => Ok [x]
  | y :: l' =>
      smaller ← py_compare OpLt (key x) (key y);
      if smaller : bool then r ← insert_desc x l'; Ok (y :: r)
      else Ok (x :: y :: l')
  end.

Fixpoint sort_reverse (l : list A) : except (list A) :=
  match l with
  | [] => Ok []
  | x :: l' => s ← sort_reverse l'; insert_desc x s
  end.

(** [len([r for r in l if cond(r)])], where [cond] may raise *)
Fixpoint count_if (cond : A -> except bool) (l : list A) : except Z :=
  match l with
  | [] => Ok 0%Z
  | x :: l' =>
      b ← cond x; n ← count_if cond l';
      Ok (if b : bool then (1 + n)%Z else n)
  end.
End Sort.

(* ===================================================================== *)
(** * The clock *)
(* ===================================================================== *)

Record datetime : Type := Datetime {
  year : N; month : N; day : N;
  hour : N; minute : N; second : N; microsecond : N
}.

(** The ranges [datetime] objects keep. *)
Definition valid_datetime (t : datetime) : bool :=
  (1 <=? year t)%N && (year t <=? 9999)%N &&
  (1 <=? month t)%N && (month t <=? 12)%N &&
  (1 <=? day t)%N && (day t <=? 31)%N &&
  (hour t <=? 23)%N && (minute t <=? 59)%N && (second t <=? 59)%N &&
  (microsecond t <=? 999999)%N.

(** [t.isoformat()] *)
Definition isoformat (t : datetime) : string :=
  Str.pad4 (year t) +:+ "-" +:+ Str.pad2 (month t) +:+ "-" +:+ Str.pad2 (day t)
  +:+ "T" +:+ Str.pad2 (hour t) +:+ ":" +:+ Str.pad2 (minute t)
  +:+ ":" +:+ Str.pad2 (second t)
  +:+ (if (microsecond t =? 0)%N then "" else "." +:+ Str.pad6 (microsecond t)).

(** [t.strftime("%Y%m%d_%H%M%S")], with [%Y] as documented: four digits,
    zero-padded.  (For a year below 1000 some C libraries leave the zeros
    out; no reading of a running clock has such a year.) *)
Definition strftime_Ymd_HMS (t : datetime) : string :=
  Str.pad4 (year t) +:+ Str.pad2 (month t) +:+ Str.pad2 (day t) +:+ "_"
  +:+ Str.pad2 (hour t) +:+ Str.pad2 (minute t) +:+ Str.pad2 (second t).

(* ===================================================================== *)
(** * The collaborators *)
(* ===================================================================== *)

(** What [client.messages.create] is given. *)
Record request : Type := Request {
  req_api_key : string;
  req_model : string;
  req_max_tokens : Z;
  req_prompt : string   (* the content of the single user message *)
}.

(** Everything the module reaches outside itself.  The index [n : nat]
    counts the moments at which the program consults the outside: the [n]-th
    inference request and the [n]-th reading of the clock. *)
Record world : Type := World {
  (** [os.environ] when the module is imported *)
  environ : gmap string string;
  (** [client.messages.create(...).content[0].text], or what it raises *)
  messages_create : nat -> request -> except string;
  (** [json.loads] *)
  json_loads : string -> except pyval;
  (** [json.dumps(obj, indent=2)] *)
  json_dumps : pyval -> string;
  (** [datetime.now()] *)
  datetime_now : nat -> datetime;
  (** [open(filename, 'w')]: [None] when the file opens, the message of the
      [OSError] otherwise *)
  open_w : gmap string string -> string -> option string
}.

(* ===================================================================== *)
(** * The module *)
(* ===================================================================== *)

(** Truthiness of what [os.environ.get] returns: [None] and the empty
    string are falsy. *)
Definition truthy (x : option string) : bool :=
  match x with
  | Some (String _ _) => true
  | _ => false
  end.

(** [x or y] *)
Definition py_or (x : option string) (y : string) : string :=
  if truthy x then default y x else y.

(** [api_key = os.environ.get("ANTHROPIC_API_KEY") or "api-key-here"] *)
Definition api_key (env : gmap string string) : string :=
  py_or (env !! "ANTHROPIC_API_KEY") "api-key-here".

Definition prompt_head : string :=
"You are a sales expert who evaluates leads.

Score this inquiry on a 1-10 scale based on:
1. Budget/ability to pay (do they mention budget or authority?)
2. Urgency (when do they need this?)
3. Problem fit (is this a real problem they have?)
4. Company size/legitimacy (are they a real prospect?)

Scale:
1-3 = Not a lead (spam, no real interest, no budget)
4-6 = Maybe interested (curious, uncertain fit, timing unclear)
7-10 = Hot lead (clear need, urgency, budget indication, decision maker)

Inquiry:
".

Definition quoted (s : string) : string := Str.dq +:+ s +:+ Str.dq.

Definition prompt_tail : string :=
"

Return ONLY valid JSON with NO markdown formatting:
{
    " +:+ quoted "score" +:+ ": <1-10>,
    " +:+ quoted "reasoning" +:+ ": " +:+ quoted "<2-3 sentences explaining the score>" +:+ ",
    " +:+ quoted "priority" +:+ ": " +:+ quoted "<HIGH/MEDIUM/LOW>" +:+ ",
    " +:+ quoted "key_signals" +:+ ": [" +:+ quoted "signal1" +:+ ", "
      +:+ quoted "signal2" +:+ ", " +:+ quoted "signal3" +:+ "],
    " +:+ quoted "recommendation" +:+ ": " +:+ quoted "<What should sales do next?>" +:+ ",
    " +:+ quoted "hot_buttons" +:+ ": [" +:+ quoted "if" +:+ ", " +:+ quoted "any"
      +:+ ", " +:+ quoted "urgent" +:+ ", " +:+ quoted "factors" +:+ "],
    " +:+ quoted "concerns" +:+ ": [" +:+ quoted "if" +:+ ", " +:+ quoted "any"
      +:+ ", " +:+ quoted "concerning" +:+ ", " +:+ quoted "factors" +:+ "]
}".

Definition build_prompt (inquiry_text : string) : string :=
  prompt_head +:+ inquiry_text +:+ prompt_tail.

Definition fence : string := "```".
Definition json_fence : string := "```json".

(** Lines 69-74: clean up markdown if present. *)
Definition clean_markdown (response_text : string) : except string :=
  if Str.contains json_fence response_text then
    after ← Str.index (Str.split json_fence response_text) 1;
    inner ← Str.index (Str.split fence after) 0;
    Ok (Str.strip inner)
  else if Str.contains fence response_text then
    after ← Str.index (Str.split fence response_text) 1;
    inner ← Str.index (Str.split fence after) 0;
    Ok (Str.strip inner)
  else Ok response_text.

(** [result[k] = v] on whatever [json.loads] returned. *)
Definition setitem (result : pyval) (k : string) (v : pyval) : except dict :=
  match result with
  | PDict d => Ok (Dict.set d k v)
  | PList _ => Raise (TypeError "list indices must be integers or slices, not str")
  | _ => Raise (TypeError ("'" +:+ type_name result
                           +:+ "' object does not support item assignment"))
  end.

(** The two [except] clauses of [score_lead].  [response_text] is the
    binding of that local when the exception was raised, if it had one. *)
Definition handle (inquiry_text : string) (response_text : option string)
    (e : exn) : dict :=
  match e with
  | JSONDecodeError _ =>
      [ ("score", PNone);
        ("status", PStr "failed");
        ("error", PStr ("JSON parsing error: " +:+ exn_str e));
        ("raw_response", PStr (default "No response" response_text)) ]
  | _ =>
      [ ("score", PNone);
        ("status", PStr "failed");
        ("error", PStr (exn_str e));
        ("original_inquiry", PStr (Str.take 150 inquiry_text +:+ "...")) ]
  end.

Definition model_name : string := "claude-sonnet-4-5-20250929".

(** [score_lead] from line 66 on, given what the request returned. *)
Definition score_reply (w : world) (n : nat) (inquiry_text : string)
    (reply : except string) : dict :=
  match reply with
  | Raise e => handle inquiry_text None e
  | Ok text =>
      let response_text := Str.strip text in
      match clean_markdown response_text with
      | Raise e => handle inquiry_text (Some response_text) e
      | Ok response_text =>
          let body :=
            parsed ← json_loads w response_text;
            result ← setitem parsed "status" (PStr "success");
            let result :=
              Dict.set result "original_inquiry"
                (PStr (if 150 <? Str.len inquiry_text
                       then Str.take 150 inquiry_text +:+ "..."
                       else inquiry_text)) in
            let result :=
              Dict.set result "timestamp" (PStr (isoformat (datetime_now w n))) in
            Ok result in
          match body with
          | Ok result => result
          | Raise e => handle inquiry_text (Some response_text) e
          end
      end
  end.

(** The arguments of [client.messages.create] in [score_lead]. *)
Definition request_for (w : world) (inquiry_text : string) : request :=
  let prompt := build_prompt inquiry_text in
  {| req_api_key := api_key (environ w);
     req_model := model_name;
     req_max_tokens := 400;
     req_prompt := prompt |}.

(** [score_lead(inquiry_text)], as the [n]-th request of the run.  Every
    exception of the [try] block meets one of the two [except] clauses, so
    the function returns a dict. *)
Definition score_lead (w : world) (n : nat) (inquiry_text : string) : dict :=
  score_reply w n inquiry_text
    (messages_create w n (request_for w inquiry_text)).

Record Analytics : Type := {
  total_leads : Z;
  scored_successfully : Z;
  hot_leads_count : Z;
  warm_leads_count : Z;
  cold_leads_count : Z;
  average_score : pyval
}.

Record BatchResult : Type := {
  all_results : list dict;
  sorted_by_priority : list dict;
  analytics : Analytics
}.

(** [r.get("status") == "success"] *)
Definition is_success (r : dict) : bool :=
  py_eq (Dict.get r "status" PNone) (PStr "success").

(** [r.get("score", 0)] *)
Definition score_or_0 (r : dict) : pyval := Dict.get r "score" (PInt 0).

(** The [for] loop of [score_multiple_leads]: [results] grows by one
    [append] per inquiry, and each call is the next request of the run. *)
Fixpoint score_each (w : world) (n : nat) (inquiry_list : list string)
    (results : list dict) : list dict :=
  match inquiry_list with
  | [] => results
  | inquiry :: rest =>
      let result := score_lead w n inquiry in
      score_each w (S n) rest (results ++ [result])
  end.

Definition is_hot (r : dict) : except bool :=
  py_compare OpGe (score_or_0 r) (PInt 7).

(** [4 <= x < 7] evaluates [x < 7] only when [4 <= x] holds. *)
Definition is_warm (r : dict) : except bool :=
  above ← py_compare OpLe (PInt 4) (score_or_0 r);
  if above : bool then py_compare OpLt (score_or_0 r) (PInt 7) else Ok false.

Definition is_cold (r : dict) : except bool :=
  py_compare OpLt (score_or_0 r) (PInt 4).

Definition len {A} (l : list A) : Z := Z.of_nat (length l).

(** [score_multiple_leads(inquiry_list)], whose first request is the
    [n]-th of the run. *)
Definition score_multiple_leads (w : world) (n : nat)
    (inquiry_list : list string) : except BatchResult :=
  let results := score_each w n inquiry_list [] in
  let successful_leads := List.filter is_success results in
  successful_leads ← sort_reverse score_or_0 successful_leads;
  hot ← count_if is_hot successful_leads;
  warm ← count_if is_warm successful_leads;
  cold ← count_if is_cold successful_leads;
  average ←
    match successful_leads with
    | [] => Ok (PInt 0)
    | _ :: _ =>
        total ← py_sum (map score_or_0 successful_leads);
        py_truediv total (PInt (len successful_leads))
    end;
  Ok {| all_results := results;
        sorted_by_priority := successful_leads;
        analytics := {| total_leads := len results;
                        scored_successfully := len successful_leads;
                        hot_leads_count := hot;
                        warm_leads_count := warm;
                        cold_leads_count := cold;
                        average_score := average |} |}.

(** [save_lead_scores(scoring_results, filename)] at moment [n], on the
    file system [fs]; returns the file name and the file system after. *)
Definition save_lead_scores (w : world) (n : nat) (fs : gmap string string)
    (scoring_results : pyval) (filename : option string)
    : except (string * gmap string string) :=
  let filename :=
    match filename with
    | None =>
        let timestamp := strftime_Ymd_HMS (datetime_now w n) in
        "lead_scores_" +:+ timestamp +:+ ".json"
    | Some given => given
    end in
  match open_w w fs filename with
  | Some msg => Raise (OSError msg)
  | None => Ok (filename, <[filename := json_dumps w scoring_results]> fs)
  end.

(* ===================================================================== *)
(** * A decoder for JSON text *)
(* ===================================================================== *)

(** [json.loads] is a field of [world]; the theorems hold for every
    decoder.  To run the module on concrete replies, this is the decoder of
    CPython's [json] package as it stands up to version 3.12: its grammar,
    its leniency ([NaN], [Infinity]), its error messages and positions.
    An escape [\uXXXX] needs four hexadecimal digits and one more character
    after them; above code point 255 it is outside the character model and
    raises [ValueError].  Integers are read whatever their length, where
    CPython from 3.11 on refuses those of more than 4300 digits. *)
Module Json.
Definition nat_str (n : nat) : string := NilZero.string_of_uint (Nat.to_uint n).

Fixpoint count_newlines (s : string) (upto : nat) : nat :=
  match upto, s with
  | S k, String c s' =>
      (if Ascii.eqb c "010" then 1 else 0) + count_newlines s' k
  | _, _ => 0
  end.

(** Column of [pos]: one more than the distance to the last newline
    before it. *)
Fixpoint column (s : string) (pos : nat) (col : nat) : nat :=
  match pos, s with
  | S k, String c s' => column s' k (if Ascii.eqb c "010" then 1 else S col)
  | _, _ => col
  end.

Definition decode_error (doc msg : string) (pos : nat) : exn :=
  JSONDecodeError
    (msg +:+ ": line " +:+ nat_str (count_newlines doc pos + 1)
         +:+ " column " +:+ nat_str (column doc pos 1)
         +:+ " (char " +:+ nat_str pos +:+ ")").

Definition is_ws (c : ascii) : bool :=
  Ascii.eqb c " " || Ascii.eqb c "009" || Ascii.eqb c "010" || Ascii.eqb c "013".

Fixpoint skip_ws (s : string) (pos : nat) : string * nat :=
  match s with
  | String c s' => if is_ws c then skip_ws s' (S pos) else (s, pos)
  | EmptyString => (s, pos)
  end.

Definition hex_digit (c : ascii) : option N :=
  let n := N_of_ascii c in
  if (48 <=? n)%N && (n <=? 57)%N then Some (n - 48)%N
  else if (65 <=? n)%N && (n <=? 70)%N then Some (n - 55)%N
  else if (97 <=? n)%N && (n <=? 102)%N then Some (n - 87)%N
  else None.

Definition hex4 (s : string) : option N :=
  match s with
  | String a (String b (String c (String d (String _ _)))) =>
      a ← hex_digit a; b ← hex_digit b; c ← hex_digit c; d ← hex_digit d;
      Some (((a * 16 + b) * 16 + c) * 16 + d)%N
  | _ => None
  end.

Fixpoint span_digits (s : string) : string * string :=
  match s with
  | String c s' =>
      if Str.is_digit c
      then let '(ds, rest) := span_digits s' in (String c ds, rest)
      else (EmptyString, s)
  | EmptyString => (EmptyString, s)
  end.

Fixpoint digits_value (acc : Z) (ds : string) : Z :=
  match ds with
  | String c ds' => digits_value (10 * acc + Z.of_N (N_of_ascii c) - 48)%Z ds'
  | EmptyString => acc
  end.

(** [float(text)] for the decimal [m * 10^e], correctly rounded. *)
Definition decimal_float (negative : bool) (m e : Z) : spec_float :=
  match m with
  | Z.pos p =>
      match e with
      | Z.neg k =>
          let '(q, e', l) :=
            SFdiv_core_binary Num.prec Num.emax (Z.pos p) 0 (10 ^ Z.pos k)%Z 0 in
          binary_round_aux Num.prec Num.emax negative q e' l
      | _ => binary_normalize Num.prec Num.emax
               (if negative then - (m * 10 ^ e) else m * 10 ^ e)%Z 0 false
      end
  | _ => S754_zero negative
  end.

Section Decoder.
Variable doc : string.

(** The body of a string, after its opening quote at [begin]. *)
Fixpoint scan_string (fuel : nat) (begin : nat) (s : string) (pos : nat)
    : except (string * string * nat) :=
  match fuel, s with
  | S fuel', String c s' =>
      if Ascii.eqb c (ascii_of_nat 34) then Ok (EmptyString, s', S pos)
      else if Ascii.eqb c (ascii_of_nat 92) then
        match s' with
        | String e s'' =>
            let simple (ch : ascii) :=
              '(body, rest, p) ← scan_string fuel' begin s'' (S (S pos));
              Ok (String ch body, rest, p) in
            if Ascii.eqb e "u" then
              match hex4 s'' with
              | Some n =>
                  if (n <? 256)%N then
                    '(body, rest, p) ←
                      scan_string fuel' begin (Str.drop 4 s'') (6 + pos);
                    Ok (String (ascii_of_N n) body, rest, p)
                  else Raise (ValueError "code point outside the character model")
              | None =>
                  Raise (decode_error doc "Invalid \uXXXX escape" (S pos))
              end
            else if Ascii.eqb e (ascii_of_nat 34) then simple (ascii_of_nat 34)
            else if Ascii.eqb e (ascii_of_nat 92) then simple (ascii_of_nat 92)
            else if Ascii.eqb e "/" then simple "/"%char
            else if Ascii.eqb e "b" then simple "008"%char
            else if Ascii.eqb e "f" then simple "012"%char
            else if Ascii.eqb e "n" then simple "010"%char
            else if Ascii.eqb e "r" then simple "013"%char
            else if Ascii.eqb e "t" then simple "009"%char
            else Raise (decode_error doc "Invalid \escape" pos)
        | EmptyString =>
            Raise (decode_error doc "Unterminated string starting at" begin)
        end
      else if (nat_of_ascii c <? 32) then
        Raise (decode_error doc "Invalid control character at" pos)
      else
        '(body, rest, p) ← scan_string fuel' begin s' (S pos);
        Ok (String c body, rest, p)
  | _, _ => Raise (decode_error doc "Unterminated string starting at" begin)
  end.

(** A number at the head of [s], if the number pattern matches there. *)
Definition scan_number (s : string) (pos : nat) : option (pyval * string * nat) :=
  let '(negative, s1) :=
    match s with
    | String "-" s' => (true, s')
    | _ => (false, s)
    end in
  let '(int_ds, s2) :=
    match s1 with
    | String "0" s' => ("0", s')
    | _ => span_digits s1
    end in
  match int_ds with
  | EmptyString => None
  | _ =>
      let '(frac_ds, s3) :=
        match s2 with
        | String "." s' =>
            match span_digits s' with
            | (EmptyString, _) => (EmptyString, s2)
            | (ds, rest) => (ds, rest)
            end
        | _ => (EmptyString, s2)
        end in
      let exponent (s' : string) : option (Z * string) :=
        let '(neg_e, s'') :=
          match s' with
          | String "-" t => (true, t)
          | String "+" t => (false, t)
          | _ => (false, s')
          end in
        match span_digits s'' with
        | (EmptyString, _) => None
        | (ds, rest) =>
            Some (if neg_e : bool then (- digits_value 0 ds)%Z
                  else digits_value 0 ds, rest)
        end in
      let exp_part :=
        match s3 with
        | String "e" s' | String "E" s' => exponent s'
        | _ => None
        end in
      let consumed (rest : string) := pos + (Str.len s - Str.len rest) in
      match frac_ds, exp_part with
      | EmptyString, None =>
          let v := digits_value 0 int_ds in
          Some (PInt (if negative : bool then (- v)%Z else v), s3, consumed s3)
      | _, _ =>
          let '(e, rest) := default (0%Z, s3) exp_part in
          let m := digits_value 0 (int_ds +:+ frac_ds) in
          Some (PFloat (decimal_float negative m
                          (e - Z.of_nat (Str.len frac_ds))),
                rest, consumed rest)
      end
  end.

Definition literal (lit : string) (v : pyval) (s : string) (pos : nat)
    : option (pyval * string * nat) :=
  if Str.startswith lit s
  then Some (v, Str.drop (Str.len lit) s, pos + Str.len lit)
  else None.

Fixpoint scan_once (fuel : nat) (s : string) (pos : nat)
    : except (pyval * string * nat) :=
  match fuel, s with
  | S fuel', String c s' =>
      if Ascii.eqb c (ascii_of_nat 34) then
        '(body, rest, p) ← scan_string (Str.len s') pos s' (S pos);
        Ok (PStr body, rest, p)
      else if Ascii.eqb c "{" then
        let '(s1, p1) := skip_ws s' (S pos) in
        match s1 with
        | String "}" rest => Ok (PDict [], rest, S p1)
        | _ => scan_members fuel' [] s1 p1
        end
      else if Ascii.eqb c "[" then
        let '(s1, p1) := skip_ws s' (S pos) in
        match s1 with
        | String "]" rest => Ok (PList [], rest, S p1)
        | _ => scan_items fuel' [] s1 p1
        end
      else
        let found :=
          match scan_number s pos with
          | Some r => Some r
          | None =>
              match literal "null" PNone s pos with
              | Some r => Some r
              | None =>
              match literal "true" (PBool true) s pos with
              | Some r => Some r
              | None =>
              match literal "false" (PBool false) s pos with
              | Some r => Some r
              | None =>
              match literal "NaN" (PFloat S754_nan) s pos with
              | Some r => Some r
              | None =>
              match literal "Infinity" (PFloat (S754_infinity false)) s pos with
              | Some r => Some r
              | None => literal "-Infinity" (PFloat (S754_infinity true)) s pos
              end end end end end
          end in
        match found with
        | Some r => Ok r
        | None => Raise (decode_error doc "Expecting value" pos)
        end
  | _, _ => Raise (decode_error doc "Expecting value" pos)
  end

(** The members of an object, from a position where a key is due. *)
with scan_members (fuel : nat) (pairs : dict) (s : string) (pos : nat)
    : except (pyval * string * nat) :=
  match fuel, s with
  | S fuel', String c s' =>
      if negb (Ascii.eqb c (ascii_of_nat 34)) then
        Raise (decode_error doc
                 "Expecting property name enclosed in double quotes" pos)
      else
        '(key, s1, p1) ← scan_string (Str.len s') pos s' (S pos);
        let '(s2, p2) :=
          match s1 with
          | String ":" _ => (s1, p1)
          | _ => skip_ws s1 p1
          end in
        match s2 with
        | String ":" s3 =>
            let '(s4, p4) := skip_ws s3 (S p2) in
            '(value, s5, p5) ← scan_once fuel' s4 p4;
            let pairs := Dict.set pairs key value in
            let '(s6, p6) := skip_ws s5 p5 in
            match s6 with
            | String "}" rest => Ok (PDict pairs, rest, S p6)
            | String "," rest =>
                let '(s7, p7) := skip_ws rest (S p6) in
                scan_members fuel' pairs s7 p7
            | _ => Raise (decode_error doc "Expecting ',' delimiter" p6)
            end
        | _ => Raise (decode_error doc "Expecting ':' delimiter" p2)
        end
  | _, _ =>
      Raise (decode_error doc
               "Expecting property name enclosed in double quotes" pos)
  end

(** The items of an array, from a position where a value is due. *)
with scan_items (fuel : nat) (items : list pyval) (s : string) (pos : nat)
    : except (pyval * string * nat) :=
  match fuel with
  | S fuel' =>
      '(value, s1, p1) ← scan_once fuel' s pos;
      let items := items ++ [value] in
      let '(s2, p2) := skip_ws s1 p1 in
      match s2 with
      | String "]" rest => Ok (PList items, rest, S p2)
      | String "," rest =>
          let '(s3, p3) := skip_ws rest (S p2) in
          scan_items fuel' items s3 p3
      | _ => Raise (decode_error doc "Expecting ',' delimiter" p2)
      end
  | O => Raise (decode_error doc "Expecting value" pos)
  end.
End Decoder.

(** [json.loads(doc)] *)
Definition loads (doc : string) : except pyval :=
  let '(s, pos) := skip_ws doc 0 in
  '(value, rest, p) ← scan_once doc (2 * Str.len doc + 2) s pos;
  let '(rest, p) := skip_ws rest p in
  match rest with
  | EmptyString => Ok value
  | _ => Raise (decode_error doc "Extra data" p)
  end.
End Json.

(* ===================================================================== *)
(** * Vocabulary of the specification *)
(* ===================================================================== *)

(** What the batch scorer's loop is specified to collect: the result of
    each inquiry, in input order, the [i]-th being request [n + i]. *)
Definition results_of (w : world) (n : nat) (inquiry_list : list string)
    : list dict :=
  imap (fun i inquiry => score_lead w (n + i) inquiry) inquiry_list.

(** The successful subset, in input order. *)
Definition successes (w : world) (n : nat) (inquiry_list : list string)
    : list dict :=
  List.filter is_success (results_of w n inquiry_list).

(** Python's numbers among the values a reply can hold. *)
Definition is_number (v : pyval) : bool :=
  match v with
  | PBool _ | PInt _ | PFloat _ => true
  | _ => false
  end.

Definition score_absent_or_number (r : dict) : bool :=
  match Dict.lookup r "score" with
  | None => true
  | Some v => is_number v
  end.

(** The data model's results: the score is an integer when present. *)
Definition score_absent_or_int (r : dict) : bool :=
  match Dict.lookup r "score" with
  | None | Some (PInt _) => true
  | _ => false
  end.

(** The score of such a result, a missing one counting as 0. *)
Definition int_score (r : dict) : Z :=
  match Dict.lookup r "score" with
  | Some (PInt z) => z
  | _ => 0%Z
  end.

(** Descending stable insertion on integer scores. *)
Fixpoint insert_by_score (x : dict) (l : list dict) : list dict :=
  match l with
  | [] => [x]
  | y :: l' =>
      if (int_score x <? int_score y)%Z then y :: insert_by_score x l'
      else x :: y :: l'
  end.

Fixpoint sort_by_score (l : list dict) : list dict :=
  match l with
  | [] => []
  | x :: l' => insert_by_score x (sort_by_score l')
  end.

Definition score_desc (a b : dict) : Prop := (int_score b <= int_score a)%Z.

Definition with_score (z : Z) (l : list dict) : list dict :=
  List.filter (fun r => (int_score r =? z)%Z) l.

Definition sum_scores (l : list dict) : Z :=
  fold_right (fun r acc => (int_score r + acc)%Z) 0%Z l.

(** The arithmetic mean as Python's true division delivers it: the float
    nearest to the quotient, and the [int] 0 for no score at all. *)
Definition mean_score (l : list dict) : except pyval :=
  match l with
  | [] => Ok (PInt 0)
  | _ :: _ => PFloat <$> Num.int_truediv (sum_scores l) (len l)
  end.

Definition count_scores (band : Z -> bool) (l : list dict) : Z :=
  len (List.filter (fun r => band (int_score r)) l).

Definition hot_band (z : Z) : bool := (7 <=? z)%Z.
Definition warm_band (z : Z) : bool := (4 <=? z)%Z && (z <=? 6)%Z.
Definition cold_band (z : Z) : bool := (z <? 4)%Z.

(** The truncation law of the specification. *)
Definition truncation_law (inquiry_text : string) : string :=
  if Str.len inquiry_text <=? 150 then inquiry_text
  else Str.take 150 inquiry_text +:+ "...".

(** [lead_scores_<YYYYMMDD_HHMMSS>.json] *)
Definition derived_name_pattern (name : string) : bool :=
  Str.startswith "lead_scores_" name
  && (Str.len name =? 32)
  && Str.all_digits (Str.take 8 (Str.drop 12 name))
  && String.eqb (Str.take 1 (Str.drop 20 name)) "_"
  && Str.all_digits (Str.take 6 (Str.drop 21 name))
  && String.eqb (Str.drop 27 name) ".json".

(** What [lstrip] returns is empty or starts with a character that is not
    white space. *)
Definition trimmed_left (s : string) : Prop :=
  match s with
  | EmptyString => True
  | String c _ => Str.is_space c = false
  end.

(** The text the markdown cleanup hands to the decoder, in terms of
    [find]. *)
Definition cleaned (response_text : string) : string :=
  match Str.find json_fence response_text with
  | Some n =>
      Str.strip (Str.first_part fence
                   (Str.first_part json_fence
                      (Str.drop (n + Str.len json_fence) response_text)))
  | None =>
      match Str.find fence response_text with
      | Some n =>
          Str.strip (Str.first_part fence
                       (Str.first_part fence
                          (Str.drop (n + Str.len fence) response_text)))
      | None => response_text
      end
  end.

(** All of [s] is white space. *)
Definition blank (s : string) : bool := String.eqb (Str.lstrip s) "".

(* ===================================================================== *)
(** * Worlds for running the module on concrete replies *)
(* ===================================================================== *)

Definition sample_clock (n : nat) : datetime :=
  Datetime 2026 11 4 9 30 (N.of_nat n) 0.

(** The [n]-th request gets the [n]-th entry of [replies]; the decoder is
    [Json.loads]; every file name but the empty one opens.  The serialised
    text plays no part in what is proved and is left constant. *)
Definition sample_world (env : gmap string string)
    (replies : list (except string)) : world :=
  {| environ := env;
     messages_create := fun n _ =>
       default (Raise (APIError "Connection error.")) (replies !! n);
     json_loads := Json.loads;
     json_dumps := fun _ => "{}";
     datetime_now := sample_clock;
     open_w := fun _ name =>
       match name with
       | EmptyString => Some "[Errno 2] No such file or directory: ''"
       | _ => None
       end |}.

(** The JSON text of an object with one member. *)
Definition object1 (k v : string) : string := "{" +:+ quoted k +:+ ": " +:+ v +:+ "}".

Definition newline : string := String "010" EmptyString.

(** Five inquiries and what the service answers to each: three verdicts,
    a reply that is no JSON, and a refused connection. *)
Definition demo_inquiries : list string :=
  [ "Just browsing, thanks";
    "Is there a student discount?";
    "We have budget approved and need to start in 2 weeks";
    "Maybe next year";
    "URGENT: our system is down" ].

Definition demo_world : world :=
  sample_world ∅
    [ Ok (object1 "score" "3");
      Ok "I cannot score this.";
      Ok (json_fence +:+ newline +:+ object1 "score" "9" +:+ newline +:+ fence);
      Ok (object1 "score" "3");
      Raise (APIError "Connection error.") ].

(** An inquiry of 160 characters. *)
Definition long_inquiry : string :=
  "We are a logistics company with 400 employees and an approved budget; "
  +:+ "we need onboarding for three regional teams before the end of the "
  +:+ "quarter, please call us.".

(** A reply that is valid JSON with a null score. *)
Definition null_score_reply : string := object1 "score" "null".

(** A well-formed object whose one string mentions a code fence. *)
Definition object_with_backticks : string :=
  object1 "reasoning" (quoted "asks about ``` blocks").

(* ===================================================================== *)
(** * Further vocabulary *)
(* ===================================================================== *)

(** The score used for sorting and banding is the float NaN. *)
Definition nan_score (r : dict) : bool :=
  match score_or_0 r with
  | PFloat S754_nan => true
  | _ => false
  end.

(** A value [json.loads] can return that is not an object. *)
Definition not_object (v : pyval) : bool :=
  match v with
  | PDict _ => false
  | _ => true
  end.


(** The file name [save_lead_scores] derives from a clock reading. *)
Definition derived_name (t : datetime) : string :=
  "lead_scores_" +:+ strftime_Ymd_HMS t +:+ ".json".

(** Two clock readings that agree up to the second. *)
Definition same_second (t1 t2 : datetime) : bool :=
  (year t1 =? year t2)%N && (month t1 =? month t2)%N && (day t1 =? day t2)%N
  && (hour t1 =? hour t2)%N && (minute t1 =? minute t2)%N
  && (second t1 =? second t2)%N.

(** A run of decimal digits read back as a number. *)
Fixpoint read_digits (acc : N) (s : string) : N :=
  match s with
  | EmptyString => acc
  | String c s' => read_digits (10 * acc + (N_of_ascii c - 48))%N s'
  end.

Definition read_field (start width : nat) (s : string) : N :=
  read_digits 0 (Str.take width (Str.drop start s)).

(** The clock reading a derived file name spells out. *)
Definition read_derived_name (name : string) : datetime :=
  {| year := read_field 12 4 name;
     month := read_field 16 2 name;
     day := read_field 18 2 name;
     hour := read_field 21 2 name;
     minute := read_field 23 2 name;
     second := read_field 25 2 name;
     microsecond := 0 |}.

(** A clock reading cut down to the second. *)
Definition to_the_second (t : datetime) : datetime :=
  {| year := year t; month := month t; day := day t;
     hour := hour t; minute := minute t; second := second t;
     microsecond := 0 |}.

(** A reply in which the verdict comes with prose around a fenced block. *)
Definition chatty_reply : string :=
  "Here is my assessment:" +:+ newline
  +:+ json_fence +:+ newline +:+ object1 "score" "7" +:+ newline +:+ fence
  +:+ newline +:+ "Let me know if you need more.".


(** A world in which no inquiry gets a usable verdict. *)
Definition failing_world : world :=
  sample_world ∅
    [ Raise (APIError "401 invalid x-api-key");
      Ok "Sorry, I cannot help with that.";
      Ok "[1, 2, 3]";
      Raise (JSONDecodeError "Expecting value: line 1 column 1 (char 0)") ].

(** A world in which scores come as an integer, a float, a boolean and
    NaN. *)
Definition mixed_world : world :=
  sample_world ∅
    [ Ok (object1 "score" "8");
      Ok (object1 "score" "5.5");
      Ok (object1 "score" "true");
      Ok (object1 "score" "NaN");
      Ok (object1 "verdict" (quoted "hot")) ].


(* ===================================================================== *)
(** * Strings *)
(* ===================================================================== *)

Section StringFacts.
Implicit Types s t p sep : string.

Lemma append_cons c s t : String c s +:+ t = String c (s +:+ t).
Proof. reflexivity. Qed.

Lemma append_empty_l s : "" +:+ s = s.
Proof. reflexivity. Qed.

Lemma append_empty_r s : s +:+ "" = s.
Proof. induction s as [|c s IH]; [reflexivity|]. rewrite append_cons, IH. reflexivity. Qed.

Lemma append_assoc s t p : (s +:+ t) +:+ p = s +:+ (t +:+ p).
Proof.
  induction s as [|c s IH]; [reflexivity|].
  rewrite !append_cons, IH. reflexivity.
Qed.

Lemma len_append s t : Str.len (s +:+ t) = Str.len s + Str.len t.
Proof.
  unfold Str.len. induction s as [|c s IH]; [reflexivity|].
  rewrite append_cons. simpl. rewrite IH. reflexivity.
Qed.

Lemma take_all n s : Str.len s <= n -> Str.take n s = s.
Proof.
  revert n. induction s as [|c s IH]; intros [|n] H; simpl in *; try reflexivity.
  - lia.
  - f_equal. apply IH. lia.
Qed.

Lemma len_take n s : Str.len (Str.take n s) = Nat.min n (Str.len s).
Proof.
  revert n. induction s as [|c s IH]; intros [|n]; simpl; try reflexivity.
  unfold Str.len in *. simpl. rewrite IH. reflexivity.
Qed.

Lemma take_append s t : Str.take (Str.len s) (s +:+ t) = s.
Proof.
  induction s as [|c s IH]; [destruct t; reflexivity|].
  rewrite append_cons. simpl. rewrite IH. reflexivity.
Qed.

Lemma drop_append s t : Str.drop (Str.len s) (s +:+ t) = t.
Proof.
  induction s as [|c s IH]; [destruct t; reflexivity|].
  rewrite append_cons. simpl. exact IH.
Qed.

Lemma take_drop n s : Str.take n s +:+ Str.drop n s = s.
Proof.
  revert n. induction s as [|c s IH]; intros [|n]; simpl; try reflexivity.
  rewrite append_cons, IH. reflexivity.
Qed.

Lemma startswith_append p s : Str.startswith p (p +:+ s) = true.
Proof.
  induction p as [|c p IH]; [reflexivity|].
  rewrite append_cons. simpl. rewrite Ascii.eqb_refl. exact IH.
Qed.

Lemma startswith_len p s : Str.startswith p s = true -> Str.len p <= Str.len s.
Proof.
  revert s. induction p as [|c p IH]; intros [|d s] H; simpl in *;
    unfold Str.len in *; simpl; try lia; try discriminate.
  apply andb_true_iff in H as [_ H]. apply IH in H. lia.
Qed.

Lemma startswith_split p s :
  Str.startswith p s = true -> s = p +:+ Str.drop (Str.len p) s.
Proof.
  revert s. induction p as [|c p IH]; intros [|d s] H; simpl in *;
    try reflexivity; try discriminate.
  apply andb_true_iff in H as [Hc H]. apply Ascii.eqb_eq in Hc. subst d.
  rewrite append_cons. f_equal. apply IH, H.
Qed.

(** A longer needle starts where a shorter one does. *)
Lemma startswith_shorter p t s :
  Str.startswith (p +:+ t) s = true -> Str.startswith p s = true.
Proof.
  revert s. induction p as [|c p IH]; intros [|d s] H; try reflexivity.
  - rewrite append_cons in H. discriminate.
  - rewrite append_cons in H. simpl in *.
    apply andb_true_iff in H as [Hc H]. rewrite Hc. simpl. eapply IH, H.
Qed.

Lemma len_drop n s : Str.len (Str.drop n s) = Str.len s - n.
Proof.
  revert n. induction s as [|c s IH]; intros [|n]; simpl; try reflexivity.
  unfold Str.len in *. simpl. apply IH.
Qed.

Lemma drop_drop n m s : Str.drop n (Str.drop m s) = Str.drop (m + n) s.
Proof.
  revert m. induction s as [|c s IH]; intros [|m]; simpl; try reflexivity.
  - destruct n; reflexivity.
  - apply IH.
Qed.

Lemma drop_append_le n s t :
  n <= Str.len s -> Str.drop n (s +:+ t) = Str.drop n s +:+ t.
Proof.
  revert n. induction s as [|c s IH]; intros [|n] H; simpl in *; try reflexivity.
  - unfold Str.len in H. simpl in H. lia.
  - apply IH. unfold Str.len in *. lia.
Qed.

Lemma drop_append_ge n s t :
  Str.len s <= n -> Str.drop n (s +:+ t) = Str.drop (n - Str.len s) t.
Proof.
  revert n. induction s as [|c s IH]; intros n H.
  - rewrite append_empty_l. f_equal. unfold Str.len. simpl. lia.
  - destruct n as [|n]; [unfold Str.len in H; simpl in H; lia|].
    rewrite append_cons. simpl. apply IH. unfold Str.len in *. simpl in H. lia.
Qed.

Lemma startswith_append_l p s t :
  Str.startswith p s = true -> Str.startswith p (s +:+ t) = true.
Proof.
  intros H. rewrite (startswith_split _ _ H), append_assoc.
  apply startswith_append.
Qed.

(** ** [find] *)

Lemma find_some sep s n :
  Str.find sep s = Some n ->
  Str.startswith sep (Str.drop n s) = true /\ n <= Str.len s /\
  forall m, m < n -> Str.startswith sep (Str.drop m s) = false.
Proof.
  revert n. induction s as [|c s IH]; intros n H; simpl in H.
  - destruct (Str.startswith sep "") eqn:E; [|discriminate].
    injection H as <-. repeat split; [exact E|lia|lia].
  - destruct (Str.startswith sep (String c s)) eqn:E.
    + injection H as <-. repeat split; [exact E|lia|lia].
    + destruct (Str.find sep s) as [k|] eqn:F; [|discriminate].
      injection H as <-. destruct (IH k eq_refl) as (H1 & H2 & H3).
      repeat split; [exact H1|unfold Str.len in *; simpl; lia|].
      intros [|m] Hm; [exact E|]. simpl. apply H3. lia.
Qed.

Lemma find_none sep s n :
  Str.find sep s = None -> Str.startswith sep (Str.drop n s) = false.
Proof.
  revert n. induction s as [|c s IH]; intros n H; simpl in H.
  - destruct (Str.startswith sep "") eqn:E; [discriminate|].
    destruct n; exact E.
  - destruct (Str.startswith sep (String c s)) eqn:E; [discriminate|].
    destruct (Str.find sep s) eqn:F; [discriminate|].
    destruct n as [|n]; [exact E|]. simpl. apply IH. reflexivity.
Qed.

Lemma find_none_intro sep s :
  (forall n, Str.startswith sep (Str.drop n s) = false) -> Str.find sep s = None.
Proof.
  induction s as [|c s IH]; intros H; pose proof (H 0) as H0;
    simpl in H0; simpl; rewrite H0; [reflexivity|].
  rewrite IH; [reflexivity|]. intros n. apply (H (S n)).
Qed.

Lemma find_some_intro sep s n :
  Str.startswith sep (Str.drop n s) = true -> n <= Str.len s ->
  (forall m, m < n -> Str.startswith sep (Str.drop m s) = false) ->
  Str.find sep s = Some n.
Proof.
  revert n. induction s as [|c s IH]; intros n H1 H2 H3.
  - unfold Str.len in H2. simpl in H2. assert (n = 0) as -> by lia.
    simpl in *. rewrite H1. reflexivity.
  - destruct n as [|n]; simpl in *.
    + rewrite H1. reflexivity.
    + pose proof (H3 0 ltac:(lia)) as H0. simpl in H0. rewrite H0.
      rewrite (IH n); [reflexivity|exact H1| |].
      * unfold Str.len in *. simpl in H2. lia.
      * intros m Hm. apply (H3 (S m)). lia.
Qed.

Lemma contains_find sep s :
  Str.contains sep s = match Str.find sep s with Some _ => true | None => false end.
Proof.
  induction s as [|c s IH]; simpl.
  - destruct (Str.startswith sep ""); reflexivity.
  - destruct (Str.startswith sep (String c s)); [reflexivity|]. simpl.
    rewrite IH. destruct (Str.find sep s); reflexivity.
Qed.

(** ** [split] *)

Lemma split_skip sep t s :
  Str.split_from sep (Str.len t) (t +:+ s) = Str.split_from sep 0 s.
Proof.
  induction t as [|c t IH]; [destruct s; reflexivity|].
  rewrite append_cons. exact IH.
Qed.

Lemma split_no_match sep s : Str.find sep s = None -> Str.split sep s = [s].
Proof.
  unfold Str.split. induction s as [|c s IH]; intros H; [reflexivity|].
  simpl in *. destruct (Str.startswith sep (String c s)); [discriminate|].
  destruct (Str.find sep s); [discriminate|]. rewrite IH; reflexivity.
Qed.

Lemma split_match sep s n :
  sep <> "" -> Str.find sep s = Some n ->
  Str.split sep s = Str.take n s :: Str.split sep (Str.drop (n + Str.len sep) s).
Proof.
  intros Hsep. unfold Str.split. revert n.
  induction s as [|c s IH]; intros n H.
  - simpl in H. destruct sep; [congruence|discriminate].
  - simpl in H. simpl Str.split_from.
    destruct (Str.startswith sep (String c s)) eqn:E.
    + injection H as <-. simpl Str.take. f_equal.
      pose proof (startswith_split _ _ E) as Hs.
      destruct sep as [|d sep']; [congruence|].
      rewrite append_cons in Hs. injection Hs as _ Hs.
      simpl Str.drop in Hs. simpl Str.drop.
      replace (Str.len (String d sep') - 1) with (Str.len sep')
        by (unfold Str.len; simpl; lia).
      rewrite Hs at 1. apply split_skip.
    + destruct (Str.find sep s) as [k|] eqn:F; [|discriminate].
      injection H as <-. rewrite (IH k eq_refl). reflexivity.
Qed.

Lemma split_index_0 sep s :
  sep <> "" -> Str.index (Str.split sep s) 0 = Ok (Str.first_part sep s).
Proof.
  intros Hsep. unfold Str.first_part. destruct (Str.find sep s) as [n|] eqn:F.
  - rewrite (split_match _ _ _ Hsep F). reflexivity.
  - rewrite (split_no_match _ _ F). reflexivity.
Qed.

Lemma split_index_1 sep s n :
  sep <> "" -> Str.find sep s = Some n ->
  Str.index (Str.split sep s) 1 =
    Ok (Str.first_part sep (Str.drop (n + Str.len sep) s)).
Proof.
  intros Hsep F. rewrite (split_match _ _ _ Hsep F).
  change (Str.index (?x :: ?l) 1) with (Str.index l 0).
  apply split_index_0, Hsep.
Qed.

(** ** [strip] *)

Lemma blank_cons c s :
  blank (String c s) = true -> Str.is_space c = true /\ blank s = true.
Proof.
  unfold blank. simpl. destruct (Str.is_space c); [auto|discriminate].
Qed.

Lemma lstrip_blank_append pre s :
  blank pre = true -> Str.lstrip (pre +:+ s) = Str.lstrip s.
Proof.
  induction pre as [|c pre IH]; intros H; [reflexivity|].
  apply blank_cons in H as [Hc H]. simpl. rewrite Hc. apply IH, H.
Qed.

Lemma rstrip_blank post : blank post = true -> Str.rstrip post = "".
Proof.
  induction post as [|c post IH]; intros H; [reflexivity|].
  apply blank_cons in H as [Hc H]. simpl. rewrite (IH H), Hc. reflexivity.
Qed.

Lemma rstrip_append s t :
  Str.rstrip (s +:+ t) =
    match Str.rstrip t with
    | EmptyString => Str.rstrip s
    | String _ _ as r => s +:+ r
    end.
Proof.
  induction s as [|c s IH].
  - rewrite append_empty_l. destruct (Str.rstrip t); reflexivity.
  - rewrite append_cons. simpl. rewrite IH.
    destruct (Str.rstrip t) as [|d r]; [reflexivity|].
    destruct s; reflexivity.
Qed.

Lemma rstrip_idempotent s : Str.rstrip (Str.rstrip s) = Str.rstrip s.
Proof.
  induction s as [|c s IH]; [reflexivity|]. simpl.
  destruct (Str.rstrip s) as [|d r] eqn:E.
  - destruct (Str.is_space c) eqn:Hc; [reflexivity|]. simpl. rewrite Hc. reflexivity.
  - change (Str.rstrip (String c (String d r)))
      with (match Str.rstrip (String d r) with
            | EmptyString =>
                if Str.is_space c then EmptyString else String c EmptyString
            | String _ _ as r' => String c r'
            end).
    rewrite IH. reflexivity.
Qed.

Lemma lstrip_trimmed s : trimmed_left (Str.lstrip s).
Proof.
  induction s as [|c s IH]; simpl; [exact I|].
  destruct (Str.is_space c) eqn:Hc; [exact IH|exact Hc].
Qed.

Lemma lstrip_of_trimmed s : trimmed_left s -> Str.lstrip s = s.
Proof. destruct s as [|c s]; simpl; [reflexivity|]. intros ->. reflexivity. Qed.

Lemma rstrip_trimmed s : trimmed_left s -> trimmed_left (Str.rstrip s).
Proof.
  destruct s as [|c s]; simpl; [auto|]. intros Hc.
  destruct (Str.rstrip s); [rewrite Hc|]; exact Hc.
Qed.

Lemma strip_idempotent s : Str.strip (Str.strip s) = Str.strip s.
Proof.
  unfold Str.strip.
  rewrite (lstrip_of_trimmed (Str.rstrip (Str.lstrip s)))
    by apply rstrip_trimmed, lstrip_trimmed.
  apply rstrip_idempotent.
Qed.

Lemma rstrip_is_prefix s : exists t, s = Str.rstrip s +:+ t.
Proof.
  induction s as [|c s [t IH]]; [exists ""; reflexivity|]. simpl.
  destruct (Str.rstrip s) as [|d r] eqn:E.
  - destruct (Str.is_space c); [exists (String c s)|exists s]; reflexivity.
  - exists t. rewrite append_cons. f_equal. exact IH.
Qed.

Lemma lstrip_is_suffix s : exists n, Str.lstrip s = Str.drop n s.
Proof.
  induction s as [|c s [n IH]]; [exists 0; reflexivity|]. simpl.
  destruct (Str.is_space c); [exists (S n); exact IH|exists 0; reflexivity].
Qed.

Lemma contains_true_iff sep s :
  Str.contains sep s = true <-> exists m, Str.startswith sep (Str.drop m s) = true.
Proof.
  rewrite contains_find. split.
  - destruct (Str.find sep s) as [n|] eqn:F; [|discriminate].
    intros _. exists n. apply (find_some _ _ _ F).
  - intros [m Hm]. destruct (Str.find sep s) eqn:F; [reflexivity|].
    rewrite (find_none _ _ m F) in Hm. discriminate.
Qed.

Lemma drop_past n s : Str.len s <= n -> Str.drop n s = "".
Proof.
  revert n. induction s as [|c s IH]; intros [|n] H; simpl; try reflexivity.
  - unfold Str.len in H. simpl in H. lia.
  - apply IH. unfold Str.len in *. simpl in H. lia.
Qed.

Lemma contains_drop sep n s :
  Str.contains sep (Str.drop n s) = true -> Str.contains sep s = true.
Proof.
  rewrite !contains_true_iff. intros [m Hm]. exists (n + m).
  rewrite <- drop_drop. exact Hm.
Qed.

Lemma contains_append_l sep s t :
  Str.contains sep s = true -> Str.contains sep (s +:+ t) = true.
Proof.
  rewrite !contains_true_iff. intros [m Hm].
  destruct (Nat.le_gt_cases m (Str.len s)) as [Hle|Hgt].
  - exists m. rewrite drop_append_le by exact Hle. apply startswith_append_l, Hm.
  - exists 0. rewrite drop_past in Hm by lia.
    destruct sep; [reflexivity|discriminate].
Qed.

Lemma contains_strip sep s :
  Str.contains sep s = false -> Str.contains sep (Str.strip s) = false.
Proof.
  intros H. destruct (Str.contains sep (Str.strip s)) eqn:E; [|reflexivity].
  rewrite <- H. symmetry. unfold Str.strip in E.
  destruct (lstrip_is_suffix s) as [n Hn].
  destruct (rstrip_is_prefix (Str.lstrip s)) as [t Ht].
  apply (contains_drop _ n). rewrite <- Hn, Ht. apply contains_append_l, E.
Qed.

End StringFacts.

(* ===================================================================== *)
(** * Markdown cleanup *)
(* ===================================================================== *)

Lemma fence_nonempty : fence <> "".
Proof. discriminate. Qed.

Lemma json_fence_nonempty : json_fence <> "".
Proof. discriminate. Qed.

Lemma clean_markdown_cleaned response_text :
  clean_markdown response_text = Ok (cleaned response_text).
Proof.
  unfold clean_markdown, cleaned. rewrite !contains_find.
  destruct (Str.find json_fence response_text) as [n|] eqn:F.
  - rewrite (split_index_1 _ _ _ json_fence_nonempty F). simpl.
    rewrite (split_index_0 _ _ fence_nonempty). reflexivity.
  - destruct (Str.find fence response_text) as [n|] eqn:G; [|reflexivity].
    rewrite (split_index_1 _ _ _ fence_nonempty G). simpl.
    rewrite (split_index_0 _ _ fence_nonempty). reflexivity.
Qed.

(* ===================================================================== *)
(** * Scoring one inquiry *)
(* ===================================================================== *)

Section Dicts.
Implicit Types (d : dict) (k : string) (v : pyval).

Lemma lookup_set_eq d k v : Dict.lookup (Dict.set d k v) k = Some v.
Proof.
  induction d as [|[k' v'] d IH]; simpl.
  - rewrite String.eqb_refl. reflexivity.
  - destruct (String.eqb k k') eqn:E; simpl; rewrite E; [reflexivity|exact IH].
Qed.

Lemma lookup_set_ne d k k' v :
  k <> k' -> Dict.lookup (Dict.set d k v) k' = Dict.lookup d k'.
Proof.
  intros Hne. induction d as [|[k0 v0] d IH]; simpl.
  - apply String.eqb_neq in Hne. rewrite String.eqb_sym, Hne. reflexivity.
  - destruct (String.eqb k k0) eqn:E; simpl.
    + apply String.eqb_eq in E. subst k0.
      assert (String.eqb k' k = false) as ->
        by (rewrite String.eqb_sym; apply String.eqb_neq, Hne).
      reflexivity.
    + rewrite IH. reflexivity.
Qed.

End Dicts.

Lemma handle_fails inquiry_text response_text e :
  is_success (handle inquiry_text response_text e) = false.
Proof. destruct e; reflexivity. Qed.

(** The success path is taken exactly when the cleaned reply decodes to a
    JSON object. *)
Lemma success_iff_object w n inquiry_text :
  is_success (score_lead w n inquiry_text) = true <->
  exists text d,
    messages_create w n (request_for w inquiry_text) = Ok text /\
    json_loads w (cleaned (Str.strip text)) = Ok (PDict d).
Proof.
  unfold score_lead, score_reply.
  destruct (messages_create w n (request_for w inquiry_text)) as [text|e].
  - rewrite clean_markdown_cleaned.
    destruct (json_loads w (cleaned (Str.strip text))) as [v|e] eqn:E.
    + destruct v as [| | | | | |d];
        try (cbn [mbind except_mbind except_bind setitem];
             rewrite handle_fails;
             split; [discriminate|intros (? & ? & ? & ?); congruence]).
      cbn [mbind except_mbind except_bind setitem].
      split; [eauto|]. intros _. unfold is_success, Dict.get.
      rewrite !lookup_set_ne by discriminate. rewrite lookup_set_eq. reflexivity.
    + cbn [mbind except_mbind except_bind]. rewrite handle_fails.
      split; [discriminate|intros (? & ? & ? & ?); congruence].
  - rewrite handle_fails. split; [discriminate|intros (? & ? & ? & ?); congruence].
Qed.

(** C3.  On the success path (the reply decoded and the record has
    status=success) the [original_inquiry] field is the inquiry verbatim
    when it has at most 150 characters, and otherwise its first 150
    characters followed by [...], 153 characters in all. *)
Theorem success_truncates_inquiry w n inquiry_text :
  is_success (score_lead w n inquiry_text) = true ->
  (Str.len inquiry_text <= 150 ->
     Dict.lookup (score_lead w n inquiry_text) "original_inquiry"
       = Some (PStr inquiry_text)) /\
  (150 < Str.len inquiry_text ->
     Dict.lookup (score_lead w n inquiry_text) "original_inquiry"
       = Some (PStr (Str.take 150 inquiry_text +:+ "...")) /\
     Str.len (Str.take 150 inquiry_text +:+ "...") = 153).
Proof.
  intros Hs. pose proof Hs as Hobj.
  apply success_iff_object in Hobj as (text & d & Hreply & Hd).
  unfold score_lead, score_reply. rewrite Hreply, clean_markdown_cleaned, Hd.
  cbn [mbind except_mbind except_bind setitem].
  rewrite lookup_set_ne by discriminate. rewrite lookup_set_eq.
  split; intros Hlen.
  - destruct (Nat.ltb_spec 150 (Str.len inquiry_text)); [lia|reflexivity].
  - destruct (Nat.ltb_spec 150 (Str.len inquiry_text)); [|lia].
    split; [reflexivity|]. rewrite len_append, len_take.
    change (Str.len "...") with 3. lia.
Qed.

(** C4.  A reply that is not valid JSON after the fence cleanup yields a
    record, not an exception: status=failed, a null score, an error message
    that is not empty and ends with the decoder's message, and the text that
    could not be decoded. *)
Theorem undecodable_reply_is_recorded w n inquiry_text text response_text msg :
  messages_create w n (request_for w inquiry_text) = Ok text ->
  clean_markdown (Str.strip text) = Ok response_text ->
  json_loads w response_text = Raise (JSONDecodeError msg) ->
  score_lead w n inquiry_text =
    [ ("score", PNone);
      ("status", PStr "failed");
      ("error", PStr ("JSON parsing error: " +:+ msg));
      ("raw_response", PStr response_text) ] /\
  is_success (score_lead w n inquiry_text) = false /\
  "JSON parsing error: " +:+ msg <> "".
Proof.
  intros Hreply Hclean Hload. unfold score_lead, score_reply.
  rewrite Hreply, Hclean, Hload. repeat split. discriminate.
Qed.

(** What the second [except] clause returns. *)
Lemma call_failure_record w n inquiry_text e :
  messages_create w n (request_for w inquiry_text) = Raise e ->
  is_json_decode_error e = false ->
  score_lead w n inquiry_text =
    [ ("score", PNone);
      ("status", PStr "failed");
      ("error", PStr (exn_str e));
      ("original_inquiry", PStr (Str.take 150 inquiry_text +:+ "...")) ].
Proof.
  intros Hreply He. unfold score_lead, score_reply. rewrite Hreply.
  destruct e; try discriminate; reflexivity.
Qed.

(** C5.  When the request fails, a short inquiry is not recorded verbatim:
    the ellipsis is appended whatever the length, so the seven characters of
    [Call me] come back as ten, while the truncation law keeps them as they
    are. *)
Theorem call_failure_marks_short_inquiry :
  let w := sample_world ∅ [Raise (APIError "Connection error.")] in
  Dict.lookup (score_lead w 0 "Call me") "status" = Some (PStr "failed") /\
  Dict.lookup (score_lead w 0 "Call me") "error" = Some (PStr "Connection error.") /\
  Dict.lookup (score_lead w 0 "Call me") "original_inquiry"
    = Some (PStr "Call me...") /\
  truncation_law "Call me" = "Call me".
Proof. vm_compute. repeat split. Qed.

(** C10.  The placeholder credential is used when the variable is unset and
    also when it is set to the empty string; any other value is used as it
    is. *)
Theorem api_key_fallback (env : gmap string string) :
  (env !! "ANTHROPIC_API_KEY" = None -> api_key env = "api-key-here") /\
  (env !! "ANTHROPIC_API_KEY" = Some "" -> api_key env = "api-key-here") /\
  (forall key, env !! "ANTHROPIC_API_KEY" = Some key -> key <> "" ->
     api_key env = key).
Proof.
  unfold api_key, py_or. repeat split.
  - intros ->. reflexivity.
  - intros ->. reflexivity.
  - intros key -> Hkey. destruct key; [congruence|reflexivity].
Qed.

(* ===================================================================== *)
(** * Fenced replies *)
(* ===================================================================== *)

Section Fences.
Variable inner : string.
Hypothesis closing_is_first :
  Str.find fence (inner +:+ fence) = Some (Str.len inner).

Lemma no_json_fence_before_closing :
  Str.find json_fence (inner +:+ fence) = None.
Proof.
  apply find_none_intro. intros m.
  destruct (Str.startswith json_fence (Str.drop m (inner +:+ fence))) eqn:E;
    [exfalso|reflexivity].
  destruct (find_some _ _ _ closing_is_first) as (_ & _ & Hmin).
  pose proof (startswith_len _ _ E) as Hlen.
  rewrite len_drop, len_append in Hlen.
  change (Str.len json_fence) with 7 in Hlen. change (Str.len fence) with 3 in Hlen.
  assert (m < Str.len inner) as Hm by lia.
  specialize (Hmin m Hm).
  change json_fence with (fence +:+ "json") in E.
  apply startswith_shorter in E. congruence.
Qed.

Lemma no_fence_inside : Str.find fence inner = None.
Proof.
  apply find_none_intro. intros m.
  destruct (Str.startswith fence (Str.drop m inner)) eqn:E; [exfalso|reflexivity].
  destruct (find_some _ _ _ closing_is_first) as (_ & _ & Hmin).
  pose proof (startswith_len _ _ E) as Hlen. rewrite len_drop in Hlen.
  change (Str.len fence) with 3 in Hlen.
  assert (m < Str.len inner) as Hm by lia.
  specialize (Hmin m Hm).
  rewrite drop_append_le in Hmin by lia.
  rewrite (startswith_append_l _ _ _ E) in Hmin. discriminate.
Qed.

Lemma first_part_to_closing : Str.first_part fence (inner +:+ fence) = inner.
Proof. unfold Str.first_part. rewrite closing_is_first. apply take_append. Qed.

Lemma cleaned_tagged :
  cleaned (json_fence +:+ inner +:+ fence) = Str.strip inner.
Proof.
  unfold cleaned.
  rewrite (find_some_intro json_fence _ 0);
    [|apply startswith_append|lia|intros m Hm; lia].
  rewrite Nat.add_0_l, drop_append.
  unfold Str.first_part at 2. rewrite no_json_fence_before_closing.
  rewrite first_part_to_closing. reflexivity.
Qed.

Lemma cleaned_untagged :
  Str.contains json_fence (fence +:+ inner +:+ fence) = false ->
  cleaned (fence +:+ inner +:+ fence) = Str.strip inner.
Proof.
  intros Hno. unfold cleaned. rewrite contains_find in Hno.
  destruct (Str.find json_fence (fence +:+ inner +:+ fence)); [discriminate|].
  rewrite (find_some_intro fence _ 0);
    [|apply startswith_append|lia|intros m Hm; lia].
  rewrite Nat.add_0_l, drop_append, first_part_to_closing.
  unfold Str.first_part. rewrite no_fence_inside. reflexivity.
Qed.

Lemma cleaned_bare : cleaned (Str.strip inner) = Str.strip inner.
Proof.
  assert (Str.contains fence inner = false) as Hf
    by (rewrite contains_find, no_fence_inside; reflexivity).
  assert (Str.contains json_fence inner = false) as Hj.
  { destruct (Str.contains json_fence inner) eqn:E; [|reflexivity].
    rewrite <- Hf. symmetry. apply contains_true_iff.
    apply contains_true_iff in E as [m Hm]. exists m.
    change json_fence with (fence +:+ "json") in Hm.
    apply startswith_shorter in Hm. exact Hm. }
  apply (contains_strip _ _) in Hf. apply (contains_strip _ _) in Hj.
  rewrite contains_find in Hf, Hj. unfold cleaned.
  destruct (Str.find json_fence (Str.strip inner)); [discriminate|].
  destruct (Str.find fence (Str.strip inner)); [discriminate|]. reflexivity.
Qed.

End Fences.

Lemma strip_wrapped pre post opening inner :
  blank pre = true -> blank post = true ->
  trimmed_left (opening +:+ inner +:+ fence +:+ post) ->
  Str.strip (pre +:+ (opening +:+ inner +:+ fence) +:+ post)
    = opening +:+ inner +:+ fence.
Proof.
  intros Hpre Hpost Htrim. unfold Str.strip.
  rewrite lstrip_blank_append by exact Hpre.
  rewrite !append_assoc. rewrite lstrip_of_trimmed by exact Htrim.
  rewrite <- (append_assoc opening inner). rewrite rstrip_append.
  rewrite rstrip_append, (rstrip_blank _ Hpost).
  change (Str.rstrip fence) with fence. unfold fence. apply append_assoc.
Qed.

(** C7.  Surrounding white space is stripped first.  When what remains is
    an opening fence ([```json] or a bare [```]), an inner content and a
    closing fence that is the first [```] after the opening one, the text
    handed to the decoder is the inner content, stripped; so the fenced
    reply is scored exactly as the inner content sent bare. *)
Theorem fenced_reply_decodes_inner w n inquiry_text pre post inner
    (tagged : bool) :
  let opening := if tagged then json_fence else fence in
  let wrapped := opening +:+ inner +:+ fence in
  blank pre = true -> blank post = true ->
  Str.find fence (inner +:+ fence) = Some (Str.len inner) ->
  (tagged = false -> Str.contains json_fence wrapped = false) ->
  Str.strip (pre +:+ wrapped +:+ post) = wrapped /\
  clean_markdown (Str.strip (pre +:+ wrapped +:+ post)) = Ok (Str.strip inner) /\
  clean_markdown (Str.strip (Str.strip inner)) = Ok (Str.strip inner) /\
  score_reply w n inquiry_text (Ok (pre +:+ wrapped +:+ post))
    = score_reply w n inquiry_text (Ok (Str.strip inner)).
Proof.
  intros opening wrapped Hpre Hpost Hclose Htag.
  assert (Str.strip (pre +:+ wrapped +:+ post) = wrapped) as Hstrip.
  { apply strip_wrapped; [exact Hpre|exact Hpost|].
    subst opening. destruct tagged; reflexivity. }
  assert (cleaned wrapped = Str.strip inner) as Hclean.
  { subst wrapped opening. destruct tagged.
    - apply cleaned_tagged, Hclose.
    - apply cleaned_untagged; [exact Hclose|apply Htag; reflexivity]. }
  assert (clean_markdown (Str.strip (Str.strip inner)) = Ok (Str.strip inner))
    as Hbare.
  { rewrite strip_idempotent, clean_markdown_cleaned.
    f_equal. apply cleaned_bare, Hclose. }
  repeat split.
  - exact Hstrip.
  - rewrite Hstrip, clean_markdown_cleaned, Hclean. reflexivity.
  - exact Hbare.
  - unfold score_reply. rewrite Hbare, Hstrip, clean_markdown_cleaned, Hclean.
    reflexivity.
Qed.

(* ===================================================================== *)
(** * Scoring a batch *)
(* ===================================================================== *)

(** ** The loop *)

Lemma score_each_results w inquiry_list : forall n results,
  score_each w n inquiry_list results = results ++ results_of w n inquiry_list.
Proof.
  unfold results_of. induction inquiry_list as [|inquiry rest IH]; intros n results.
  - simpl. rewrite app_nil_r. reflexivity.
  - simpl. rewrite IH, <- app_assoc. simpl. rewrite Nat.add_0_r.
    do 2 f_equal. apply imap_ext. intros i x _. simpl. f_equal. lia.
Qed.

Lemma results_of_length w n inquiry_list :
  length (results_of w n inquiry_list) = length inquiry_list.
Proof. unfold results_of. apply length_imap. Qed.

Lemma results_of_lookup w n inquiry_list i inquiry :
  inquiry_list !! i = Some inquiry ->
  results_of w n inquiry_list !! i = Some (score_lead w (n + i) inquiry).
Proof.
  intros H. unfold results_of. rewrite list_lookup_imap, H. reflexivity.
Qed.

(** ** Integer scores *)

Section IntScores.
Implicit Types (r x y : dict) (l : list dict).

Lemma score_or_0_int r :
  score_absent_or_int r = true -> score_or_0 r = PInt (int_score r).
Proof.
  unfold score_absent_or_int, score_or_0, int_score, Dict.get.
  destruct (Dict.lookup r "score") as [[]|]; (discriminate || reflexivity).
Qed.

Lemma compare_ints op a b :
  py_compare op (PInt a) (PInt b) = Ok (op_holds op (Some (a ?= b)%Z)).
Proof. reflexivity. Qed.

Lemma insert_desc_int x l :
  score_absent_or_int x = true ->
  Forall (fun r => score_absent_or_int r = true) l ->
  insert_desc score_or_0 x l = Ok (insert_by_score x l).
Proof.
  intros Hx Hl. induction Hl as [|y l Hy Hl IH]; [reflexivity|].
  simpl. rewrite (score_or_0_int _ Hx), (score_or_0_int _ Hy), compare_ints.
  cbn [mbind except_mbind except_bind op_holds]. unfold Z.ltb.
  destruct (int_score x ?= int_score y)%Z; try reflexivity.
  rewrite IH. reflexivity.
Qed.

Lemma insert_by_score_perm x l : insert_by_score x l ≡ₚ x :: l.
Proof.
  induction l as [|y l IH]; [reflexivity|]. simpl.
  destruct (int_score x <? int_score y)%Z; [|reflexivity].
  rewrite IH. apply perm_swap.
Qed.

Lemma sort_by_score_perm l : sort_by_score l ≡ₚ l.
Proof.
  induction l as [|x l IH]; [reflexivity|]. simpl.
  rewrite insert_by_score_perm, IH. reflexivity.
Qed.

Lemma sort_reverse_int l :
  Forall (fun r => score_absent_or_int r = true) l ->
  sort_reverse score_or_0 l = Ok (sort_by_score l).
Proof.
  intros Hl. induction Hl as [|x l Hx Hl IH]; [reflexivity|].
  simpl. rewrite IH. cbn [mbind except_mbind except_bind].
  apply insert_desc_int; [exact Hx|].
  rewrite sort_by_score_perm. exact Hl.
Qed.

Lemma insert_by_score_sorted x l :
  StronglySorted score_desc l -> StronglySorted score_desc (insert_by_score x l).
Proof.
  intros Hl. induction Hl as [|y l Hl IH Hy]; simpl.
  - repeat constructor.
  - destruct (Z.ltb_spec (int_score x) (int_score y)) as [Hlt|Hge].
    + constructor; [exact IH|].
      rewrite insert_by_score_perm. constructor; [|exact Hy].
      unfold score_desc. lia.
    + constructor; [constructor; assumption|].
      constructor; [unfold score_desc; lia|].
      eapply Forall_impl; [exact Hy|]. unfold score_desc. simpl. intros; lia.
Qed.

Lemma sort_by_score_sorted l : StronglySorted score_desc (sort_by_score l).
Proof.
  induction l as [|x l IH]; simpl; [constructor|].
  apply insert_by_score_sorted, IH.
Qed.

(** Stability: results with the same score keep their order. *)
Lemma insert_by_score_stable z x l :
  with_score z (insert_by_score x l) = with_score z (x :: l).
Proof.
  unfold with_score. induction l as [|y l IH]; [reflexivity|].
  simpl insert_by_score.
  destruct (Z.ltb_spec (int_score x) (int_score y)) as [Hlt|Hge]; [|reflexivity].
  simpl in *. rewrite IH.
  destruct (Z.eqb_spec (int_score x) z), (Z.eqb_spec (int_score y) z);
    try reflexivity. lia.
Qed.

Lemma sort_by_score_stable z l : with_score z (sort_by_score l) = with_score z l.
Proof.
  induction l as [|x l IH]; [reflexivity|]. simpl sort_by_score.
  rewrite insert_by_score_stable. unfold with_score in *. simpl. rewrite IH.
  reflexivity.
Qed.

Lemma sum_scores_perm l l' : l ≡ₚ l' -> sum_scores l = sum_scores l'.
Proof.
  induction 1; simpl; lia.
Qed.

Lemma count_scores_perm band l l' :
  l ≡ₚ l' -> count_scores band l = count_scores band l'.
Proof.
  intros H. unfold count_scores, len. f_equal.
  induction H; simpl; try congruence.
  - destruct (band (int_score x)); simpl; congruence.
  - destruct (band (int_score x)), (band (int_score y)); reflexivity.
Qed.

Lemma mean_score_perm l l' : l ≡ₚ l' -> mean_score l = mean_score l'.
Proof.
  intros H. unfold mean_score, len.
  rewrite (sum_scores_perm _ _ H), (Permutation_length H).
  destruct l, l'; try reflexivity.
  - apply Permutation_nil_l in H. discriminate.
  - apply Permutation_nil_r in H. discriminate.
Qed.

Lemma count_if_int (cond : dict -> except bool) (band : Z -> bool) l :
  (forall r, score_absent_or_int r = true -> cond r = Ok (band (int_score r))) ->
  Forall (fun r => score_absent_or_int r = true) l ->
  count_if cond l = Ok (count_scores band l).
Proof.
  intros Hcond Hl. unfold count_scores, len.
  induction Hl as [|x l Hx Hl IH]; [reflexivity|].
  simpl. rewrite (Hcond _ Hx), IH. cbn [mbind except_mbind except_bind].
  destruct (band (int_score x)); [|reflexivity].
  simpl length. f_equal. lia.
Qed.

Lemma is_hot_int r :
  score_absent_or_int r = true -> is_hot r = Ok (hot_band (int_score r)).
Proof.
  intros H. unfold is_hot, hot_band. rewrite (score_or_0_int _ H), compare_ints.
  f_equal. unfold Z.leb. rewrite (Z.compare_antisym (int_score r) 7).
  destruct (int_score r ?= 7)%Z; reflexivity.
Qed.

Lemma is_warm_int r :
  score_absent_or_int r = true -> is_warm r = Ok (warm_band (int_score r)).
Proof.
  intros H. unfold is_warm, warm_band. rewrite (score_or_0_int _ H), !compare_ints.
  cbn [mbind except_mbind except_bind op_holds].
  destruct (Z.leb_spec 4 (int_score r)) as [H4|H4];
    destruct (Z.leb_spec (int_score r) 6) as [H6|H6];
    destruct (Z.compare_spec 4 (int_score r));
    destruct (Z.compare_spec (int_score r) 7); simpl; try reflexivity; lia.
Qed.

Lemma is_cold_int r :
  score_absent_or_int r = true -> is_cold r = Ok (cold_band (int_score r)).
Proof.
  intros H. unfold is_cold, cold_band. rewrite (score_or_0_int _ H), compare_ints.
  reflexivity.
Qed.

Lemma py_sum_int l : forall a,
  Forall (fun r => score_absent_or_int r = true) l ->
  foldl (fun acc v => t ← acc; py_add t v) (Ok (PInt a)) (map score_or_0 l)
    = Ok (PInt (a + sum_scores l)).
Proof.
  induction l as [|x l IH]; intros a Hl.
  - simpl. rewrite Z.add_0_r. reflexivity.
  - apply Forall_cons in Hl as [Hx Hl]. simpl.
    rewrite (score_or_0_int _ Hx). cbn [mbind except_mbind except_bind py_add Num.of_py].
    rewrite (IH _ Hl). do 2 f_equal. lia.
Qed.

(** The three bands split the integers. *)
Lemma bands_partition l :
  (count_scores hot_band l + count_scores warm_band l + count_scores cold_band l
   = len l)%Z.
Proof.
  unfold count_scores, len. induction l as [|x l IH]; [reflexivity|]. simpl.
  unfold hot_band, warm_band, cold_band in *.
  destruct (Z.leb_spec 7 (int_score x)), (Z.leb_spec 4 (int_score x)),
    (Z.leb_spec (int_score x) 6), (Z.ltb_spec (int_score x) 4);
    simpl; try lia.
Qed.

End IntScores.

(** ** The batch on results of the data model *)

Lemma batch_on_int_scores w n inquiry_list average :
  Forall (fun r => score_absent_or_int r = true) (successes w n inquiry_list) ->
  mean_score (successes w n inquiry_list) = Ok average ->
  score_multiple_leads w n inquiry_list =
    Ok {| all_results := results_of w n inquiry_list;
          sorted_by_priority := sort_by_score (successes w n inquiry_list);
          analytics :=
            {| total_leads := len (results_of w n inquiry_list);
               scored_successfully := len (successes w n inquiry_list);
               hot_leads_count := count_scores hot_band (successes w n inquiry_list);
               warm_leads_count := count_scores warm_band (successes w n inquiry_list);
               cold_leads_count := count_scores cold_band (successes w n inquiry_list);
               average_score := average |} |}.
Proof.
  intros Hint Hmean. unfold score_multiple_leads.
  rewrite score_each_results, app_nil_l. fold (successes w n inquiry_list).
  pose proof (sort_by_score_perm (successes w n inquiry_list)) as Hperm.
  assert (Forall (fun r => score_absent_or_int r = true)
            (sort_by_score (successes w n inquiry_list))) as Hsorted
    by (rewrite Hperm; exact Hint).
  rewrite (sort_reverse_int _ Hint). cbn [mbind except_mbind except_bind].
  rewrite (count_if_int _ _ _ is_hot_int Hsorted),
          (count_if_int _ _ _ is_warm_int Hsorted),
          (count_if_int _ _ _ is_cold_int Hsorted).
  cbn [mbind except_mbind except_bind].
  rewrite <- (mean_score_perm _ _ Hperm) in Hmean.
  rewrite !(count_scores_perm _ _ _ Hperm).
  assert (len (sort_by_score (successes w n inquiry_list))
          = len (successes w n inquiry_list)) as Hlen
    by (unfold len; rewrite (Permutation_length Hperm); reflexivity).
  destruct (sort_by_score (successes w n inquiry_list)) as [|r sorted] eqn:E.
  - simpl in Hmean. injection Hmean as <-. rewrite <- Hlen. reflexivity.
  - unfold py_sum. rewrite (py_sum_int _ 0%Z Hsorted), Z.add_0_l.
    cbn [mbind except_mbind except_bind py_truediv Num.of_py].
    unfold mean_score in Hmean. rewrite Hmean, Hlen. reflexivity.
Qed.

(** C1.  When every successful result carries a score that is absent or an
    integer, and the mean of those scores fits a float, the batch scorer
    returns; [all_results] holds one result per inquiry in input order,
    whatever the mix of successes and failures; [sorted_by_priority] holds
    exactly the successful entries, none failed, by descending score with a
    missing score counting as 0, entries of equal score in input order. *)
Theorem batch_orders_results w n inquiry_list average :
  Forall (fun r => score_absent_or_int r = true) (successes w n inquiry_list) ->
  mean_score (successes w n inquiry_list) = Ok average ->
  exists batch,
    score_multiple_leads w n inquiry_list = Ok batch /\
    length (all_results batch) = length inquiry_list /\
    (forall i inquiry, inquiry_list !! i = Some inquiry ->
       all_results batch !! i = Some (score_lead w (n + i) inquiry)) /\
    sorted_by_priority batch ≡ₚ List.filter is_success (all_results batch) /\
    Forall (fun r => is_success r = true) (sorted_by_priority batch) /\
    StronglySorted score_desc (sorted_by_priority batch) /\
    (forall z, with_score z (sorted_by_priority batch)
               = with_score z (List.filter is_success (all_results batch))).
Proof.
  intros Hint Hmean. eexists. split; [apply (batch_on_int_scores _ _ _ _ Hint Hmean)|].
  cbn [all_results sorted_by_priority]. fold (successes w n inquiry_list).
  repeat split.
  - apply results_of_length.
  - apply results_of_lookup.
  - apply sort_by_score_perm.
  - rewrite sort_by_score_perm. unfold successes.
    apply List.Forall_forall. intros r Hr. apply List.filter_In in Hr. apply Hr.
  - apply sort_by_score_sorted.
  - intros z. apply sort_by_score_stable.
Qed.

(** C2.  Under the same condition the three band counts are the numbers of
    successful results with a score of at least 7, from 4 to 6, and below 4,
    and they add up to [scored_successfully]. *)
Theorem analytics_bands_partition w n inquiry_list average :
  Forall (fun r => score_absent_or_int r = true) (successes w n inquiry_list) ->
  mean_score (successes w n inquiry_list) = Ok average ->
  exists batch,
    score_multiple_leads w n inquiry_list = Ok batch /\
    scored_successfully (analytics batch) = len (successes w n inquiry_list) /\
    hot_leads_count (analytics batch)
      = count_scores hot_band (successes w n inquiry_list) /\
    warm_leads_count (analytics batch)
      = count_scores warm_band (successes w n inquiry_list) /\
    cold_leads_count (analytics batch)
      = count_scores cold_band (successes w n inquiry_list) /\
    (hot_leads_count (analytics batch) + warm_leads_count (analytics batch)
     + cold_leads_count (analytics batch)
     = scored_successfully (analytics batch))%Z.
Proof.
  intros Hint Hmean. eexists. split; [apply (batch_on_int_scores _ _ _ _ Hint Hmean)|].
  cbn [analytics scored_successfully hot_leads_count warm_leads_count
       cold_leads_count].
  repeat split. apply bands_partition.
Qed.

(** C6.  Under the same condition [average_score] is the mean of the
    scores of the successful results, a missing score contributing 0: the
    [int] 0 when there is none, and otherwise the float that the true
    division of their sum by their number yields. *)
Theorem average_is_mean w n inquiry_list average :
  Forall (fun r => score_absent_or_int r = true) (successes w n inquiry_list) ->
  mean_score (successes w n inquiry_list) = Ok average ->
  exists batch,
    score_multiple_leads w n inquiry_list = Ok batch /\
    average_score (analytics batch) = average /\
    (successes w n inquiry_list = [] -> average = PInt 0) /\
    (successes w n inquiry_list <> [] ->
       exists quotient,
         Num.int_truediv (sum_scores (successes w n inquiry_list))
                         (len (successes w n inquiry_list)) = Ok quotient /\
         average = PFloat quotient).
Proof.
  intros Hint Hmean. eexists. split; [apply (batch_on_int_scores _ _ _ _ Hint Hmean)|].
  cbn [analytics average_score]. split; [reflexivity|].
  unfold mean_score in Hmean.
  destruct (successes w n inquiry_list) as [|r l]; split; try congruence.
  intros _.
  destruct (Num.int_truediv (sum_scores (r :: l)) (len (r :: l))) as [q|e];
    [|discriminate].
  exists q. split; [reflexivity|]. simpl in Hmean. congruence.
Qed.

(** ** When the batch scorer returns at all *)

Section Totality.
Context {A : Type} (key : A -> pyval).

Lemma insert_desc_perm x l s : insert_desc key x l = Ok s -> s ≡ₚ x :: l.
Proof.
  revert s. induction l as [|y l IH]; intros s H; simpl in H.
  - injection H as <-. reflexivity.
  - destruct (py_compare OpLt (key x) (key y)) as [[]|]; simpl in H;
      try discriminate.
    + destruct (insert_desc key x l) as [r|]; simpl in H; [|discriminate].
      injection H as <-. rewrite (IH r eq_refl). apply perm_swap.
    + injection H as <-. reflexivity.
Qed.

Lemma sort_reverse_perm l s : sort_reverse key l = Ok s -> s ≡ₚ l.
Proof.
  revert s. induction l as [|x l IH]; intros s H; simpl in H.
  - injection H as <-. reflexivity.
  - destruct (sort_reverse key l) as [r|]; simpl in H; [|discriminate].
    rewrite (insert_desc_perm _ _ _ H), (IH r eq_refl). reflexivity.
Qed.

Lemma count_if_ok (cond : A -> except bool) l k :
  count_if cond l = Ok k -> Forall (fun r => exists b, cond r = Ok b) l.
Proof.
  revert k. induction l as [|x l IH]; intros k H; [constructor|].
  simpl in H. destruct (cond x) as [b|] eqn:E; simpl in H; [|discriminate].
  destruct (count_if cond l) as [m|]; simpl in H; [|discriminate].
  constructor; [exists b; exact E|]. apply (IH m eq_refl).
Qed.

End Totality.

Lemma is_hot_ok_number r b : is_hot r = Ok b -> score_absent_or_number r = true.
Proof.
  unfold is_hot, score_or_0, score_absent_or_number, Dict.get.
  destruct (Dict.lookup r "score") as [v|]; [|reflexivity].
  destruct v; simpl; (reflexivity || discriminate).
Qed.

(** C9.  The reply [null_score_reply], an object whose score is null, is
    valid JSON and [score_lead] turns
    it into a record with status=success and a null score; a batch holding
    that result and another successful one makes [score_multiple_leads]
    raise a [TypeError] instead of returning.  In general the batch scorer
    returns only when the score of every successful result is absent or a
    number ([int], [float] or [bool]). *)
Theorem null_score_breaks_batch :
  let w := sample_world ∅ [Ok null_score_reply; Ok (object1 "score" "5")] in
  Json.loads null_score_reply = Ok (PDict [("score", PNone)]) /\
  is_success (score_lead w 0 "Pricing for 40 seats?") = true /\
  Dict.lookup (score_lead w 0 "Pricing for 40 seats?") "score" = Some PNone /\
  is_success (score_lead w 1 "We buy this week") = true /\
  score_multiple_leads w 0 ["Pricing for 40 seats?"; "We buy this week"]
    = Raise (TypeError
               "'<' not supported between instances of 'NoneType' and 'int'") /\
  (forall w n inquiry_list batch,
     score_multiple_leads w n inquiry_list = Ok batch ->
     Forall (fun r => is_success r = true -> score_absent_or_number r = true)
       (results_of w n inquiry_list)).
Proof.
  repeat split; try (vm_compute; reflexivity).
  intros w n inquiry_list batch H. unfold score_multiple_leads in H.
  rewrite score_each_results, app_nil_l in H.
  destruct (sort_reverse score_or_0
              (List.filter is_success (results_of w n inquiry_list)))
    as [sorted|] eqn:Hsort; simpl in H; [|discriminate].
  destruct (count_if is_hot sorted) as [hot|] eqn:Hhot; simpl in H; [|discriminate].
  apply count_if_ok in Hhot. apply sort_reverse_perm in Hsort.
  rewrite Hsort in Hhot. rewrite List.Forall_forall in Hhot.
  apply List.Forall_forall. intros r Hin Hs.
  destruct (Hhot r) as [b Hb]; [apply List.filter_In; auto|].
  apply (is_hot_ok_number _ _ Hb).
Qed.

(* ===================================================================== *)
(** * Saving *)
(* ===================================================================== *)

Lemma is_digit_digit k : Str.is_digit (ascii_of_N (48 + k mod 10)) = true.
Proof.
  unfold Str.is_digit, nat_of_ascii.
  assert (k mod 10 < 10)%N as Hk by (apply N.mod_lt; discriminate).
  generalize dependent (k mod 10)%N. intros r Hr.
  rewrite N_ascii_embedding by lia.
  apply andb_true_iff. split; apply Nat.leb_le; lia.
Qed.

Lemma derived_name_matches t :
  derived_name_pattern ("lead_scores_" +:+ strftime_Ymd_HMS t +:+ ".json") = true.
Proof.
  unfold strftime_Ymd_HMS, Str.pad4, Str.pad2, Str.digit.
  cbv -[N.add N.modulo N.div ascii_of_N Str.is_digit year month day hour
        minute second].
  rewrite !is_digit_digit. reflexivity.
Qed.

(* ===================================================================== *)
(** * The module at work *)
(* ===================================================================== *)

(** The batch scorer does not return on a success whose score is null. *)
Lemma batch_raises_on_null_score :
  let w := sample_world ∅ [Ok null_score_reply] in
  is_success (score_lead w 0 "Pricing for 40 seats?") = true /\
  score_multiple_leads w 0 ["Pricing for 40 seats?"]
    = Raise (TypeError
               "'>=' not supported between instances of 'NoneType' and 'int'") /\
  ~ (exists batch, score_multiple_leads w 0 ["Pricing for 40 seats?"] = Ok batch).
Proof.
  repeat split; try (vm_compute; reflexivity).
  intros [batch H]. vm_compute in H. discriminate.
Qed.

(** A success whose score is NaN is counted in no band. *)
Lemma nan_score_in_no_band :
  let w := sample_world ∅ [Ok (object1 "score" "NaN")] in
  exists batch,
    score_multiple_leads w 0 ["Pricing for 40 seats?"] = Ok batch /\
    scored_successfully (analytics batch) = 1%Z /\
    hot_leads_count (analytics batch) = 0%Z /\
    warm_leads_count (analytics batch) = 0%Z /\
    cold_leads_count (analytics batch) = 0%Z /\
    (hot_leads_count (analytics batch) + warm_leads_count (analytics batch)
     + cold_leads_count (analytics batch)
     <> scored_successfully (analytics batch))%Z.
Proof.
  eexists. split; [vm_compute; reflexivity|]. vm_compute.
  repeat split; discriminate.
Qed.

(** No average comes back when a score arrives as text. *)
Lemma text_score_gives_no_average :
  let w := sample_world ∅ [Ok (object1 "score" (quoted "8"))] in
  is_success (score_lead w 0 "Pricing for 40 seats?") = true /\
  score_multiple_leads w 0 ["Pricing for 40 seats?"]
    = Raise (TypeError
               "'>=' not supported between instances of 'str' and 'int'") /\
  ~ (exists batch, score_multiple_leads w 0 ["Pricing for 40 seats?"] = Ok batch).
Proof.
  repeat split; try (vm_compute; reflexivity).
  intros [batch H]. vm_compute in H. discriminate.
Qed.

(** A well-formed object that mentions a fence inside a string is cut at
    that mention: fenced, it does not decode; and sent bare it does not
    either, with another remainder. *)
Lemma fenced_object_with_backticks_is_cut :
  let w := sample_world ∅ [] in
  let fenced := json_fence +:+ newline +:+ object_with_backticks +:+ newline +:+ fence in
  Json.loads object_with_backticks
    = Ok (PDict [("reasoning", PStr "asks about ``` blocks")]) /\
  clean_markdown (Str.strip fenced)
    = Ok ("{" +:+ quoted "reasoning" +:+ ": " +:+ Str.dq +:+ "asks about") /\
  clean_markdown (Str.strip fenced) <> Ok object_with_backticks /\
  is_success (score_reply w 0 "Hello" (Ok fenced)) = false /\
  score_reply w 0 "Hello" (Ok fenced)
    <> score_reply w 0 "Hello" (Ok object_with_backticks).
Proof.
  repeat split; try (vm_compute; reflexivity); vm_compute; discriminate.
Qed.

Lemma batch_orders_results_demo :
  exists batch,
    score_multiple_leads demo_world 0 demo_inquiries = Ok batch /\
    length (all_results batch) = 5 /\
    StronglySorted score_desc (sorted_by_priority batch).
Proof.
  destruct (batch_orders_results demo_world 0 demo_inquiries
              (PFloat (S754_finite false 5629499534213120 (-50))))
    as (batch & Hb & Hlen & _ & _ & _ & Hsorted & _).
  - vm_compute. repeat constructor.
  - vm_compute. reflexivity.
  - exists batch. repeat split; assumption.
Defined.

Lemma analytics_bands_partition_demo :
  exists batch,
    score_multiple_leads demo_world 0 demo_inquiries = Ok batch /\
    (hot_leads_count (analytics batch) + warm_leads_count (analytics batch)
     + cold_leads_count (analytics batch) = 3)%Z.
Proof.
  destruct (analytics_bands_partition demo_world 0 demo_inquiries
              (PFloat (S754_finite false 5629499534213120 (-50))))
    as (batch & Hb & Hn & _ & _ & _ & Hsum).
  - vm_compute. repeat constructor.
  - vm_compute. reflexivity.
  - exists batch. split; [exact Hb|]. rewrite Hsum, Hn. reflexivity.
Defined.

Lemma average_is_mean_demo :
  exists batch,
    score_multiple_leads demo_world 0 demo_inquiries = Ok batch /\
    average_score (analytics batch)
      = PFloat (S754_finite false 5629499534213120 (-50)).
Proof.
  destruct (average_is_mean demo_world 0 demo_inquiries
              (PFloat (S754_finite false 5629499534213120 (-50))))
    as (batch & Hb & Havg & _).
  - vm_compute. repeat constructor.
  - vm_compute. reflexivity.
  - exists batch. split; assumption.
Defined.

Lemma success_truncates_inquiry_demo :
  let w := sample_world ∅ [Ok (object1 "score" "8"); Ok (object1 "score" "8")] in
  Dict.lookup (score_lead w 0 "Call me") "original_inquiry"
    = Some (PStr "Call me") /\
  Dict.lookup (score_lead w 1 long_inquiry) "original_inquiry"
    = Some (PStr (Str.take 150 long_inquiry +:+ "...")).
Proof.
  intros w. split.
  - apply (success_truncates_inquiry w 0 "Call me").
    + vm_compute. reflexivity.
    + vm_compute. lia.
  - apply (success_truncates_inquiry w 1 long_inquiry).
    + vm_compute. reflexivity.
    + vm_compute. lia.
Defined.

Lemma undecodable_reply_is_recorded_demo :
  score_lead demo_world 1 "Is there a student discount?" =
    [ ("score", PNone);
      ("status", PStr "failed");
      ("error", PStr ("JSON parsing error: "
                      +:+ "Expecting value: line 1 column 1 (char 0)"));
      ("raw_response", PStr "I cannot score this.") ].
Proof.
  apply (undecodable_reply_is_recorded demo_world 1
           "Is there a student discount?" "I cannot score this.").
  - vm_compute. reflexivity.
  - vm_compute. reflexivity.
  - vm_compute. reflexivity.
Defined.

Lemma fenced_reply_decodes_inner_demo :
  let inner := newline +:+ object1 "score" "9" +:+ newline in
  clean_markdown
    (Str.strip (("  " +:+ newline) +:+ (json_fence +:+ inner +:+ fence) +:+ newline))
    = Ok (object1 "score" "9").
Proof.
  intros inner.
  apply (fenced_reply_decodes_inner demo_world 0 "Hello" ("  " +:+ newline)
           newline inner true).
  - vm_compute. reflexivity.
  - vm_compute. reflexivity.
  - vm_compute. reflexivity.
  - discriminate.
Defined.

Lemma batch_returns_on_numbers_demo :
  Forall (fun r => is_success r = true -> score_absent_or_number r = true)
    (results_of demo_world 0 demo_inquiries).
Proof.
  destruct (score_multiple_leads demo_world 0 demo_inquiries) as [batch|e] eqn:E.
  - apply (proj2 (proj2 (proj2 (proj2 (proj2 null_score_breaks_batch))))
             demo_world 0 demo_inquiries batch E).
  - vm_compute in E. discriminate.
Defined.

Lemma api_key_fallback_demo :
  api_key ∅ = "api-key-here" /\
  api_key {[ "ANTHROPIC_API_KEY" := "" ]} = "api-key-here" /\
  api_key {[ "ANTHROPIC_API_KEY" := "sk-live-123" ]} = "sk-live-123".
Proof.
  split; [|split].
  - apply (proj1 (api_key_fallback ∅)). vm_compute. reflexivity.
  - apply (proj1 (proj2 (api_key_fallback {[ "ANTHROPIC_API_KEY" := "" ]}))).
    vm_compute. reflexivity.
  - apply (proj2 (proj2
                    (api_key_fallback {[ "ANTHROPIC_API_KEY" := "sk-live-123" ]}))).
    + vm_compute. reflexivity.
    + discriminate.
Defined.

(* ===================================================================== *)
(** * More on the markdown cleanup *)
(* ===================================================================== *)

Lemma nonempty_len sep : sep <> "" -> 1 <= Str.len sep.
Proof. destruct sep; [congruence|]. intros _. unfold Str.len. simpl. lia. Qed.

(** The part before the first separator holds no separator. *)
Lemma first_part_no_sep sep s :
  sep <> "" -> Str.contains sep (Str.first_part sep s) = false.
Proof.
  intros Hsep. unfold Str.first_part.
  destruct (Str.find sep s) as [n|] eqn:F.
  - destruct (Str.contains sep (Str.take n s)) eqn:E; [exfalso|reflexivity].
    apply contains_true_iff in E as [m Hm].
    pose proof (startswith_len _ _ Hm) as Hlen.
    rewrite len_drop, len_take in Hlen.
    pose proof (nonempty_len _ Hsep) as Hpos.
    destruct (find_some _ _ _ F) as (_ & _ & Hmin).
    assert (m < n) as Hlt by lia.
    specialize (Hmin m Hlt).
    rewrite <- (take_drop n s) in Hmin.
    rewrite drop_append_le in Hmin by (rewrite len_take; lia).
    rewrite (startswith_append_l _ _ _ Hm) in Hmin. discriminate.
  - rewrite contains_find, F. reflexivity.
Qed.

Lemma contains_json_fence_fence s :
  Str.contains fence s = false -> Str.contains json_fence s = false.
Proof.
  intros H. destruct (Str.contains json_fence s) eqn:E; [|reflexivity].
  rewrite <- H. symmetry. apply contains_true_iff.
  apply contains_true_iff in E as [m Hm]. exists m.
  change json_fence with (fence +:+ "json") in Hm.
  apply startswith_shorter in Hm. exact Hm.
Qed.

Lemma cleaned_no_fence s : Str.contains fence (cleaned s) = false.
Proof.
  unfold cleaned.
  destruct (Str.find json_fence s) as [n|] eqn:F.
  - apply contains_strip, first_part_no_sep, fence_nonempty.
  - destruct (Str.find fence s) as [n|] eqn:G.
    + apply contains_strip, first_part_no_sep, fence_nonempty.
    + rewrite contains_find, G. reflexivity.
Qed.

Lemma cleaned_without_fence s : Str.contains fence s = false -> cleaned s = s.
Proof.
  intros H. pose proof (contains_json_fence_fence _ H) as Hj.
  rewrite contains_find in H, Hj. unfold cleaned.
  destruct (Str.find json_fence s); [discriminate|].
  destruct (Str.find fence s); [discriminate|]. reflexivity.
Qed.

(** X1.  The cleanup never raises: the parts it indexes always exist.  The
    text it hands to the decoder holds no fence marker and no surrounding
    white space, and a reply without a fence marker is handed on as it is,
    stripped. *)
Theorem cleanup_hands_on_clean_text text :
  exists response_text,
    clean_markdown (Str.strip text) = Ok response_text /\
    Str.contains fence response_text = false /\
    Str.strip response_text = response_text /\
    (Str.contains fence text = false -> response_text = Str.strip text).
Proof.
  exists (cleaned (Str.strip text)). repeat split.
  - apply clean_markdown_cleaned.
  - apply cleaned_no_fence.
  - unfold cleaned.
    destruct (Str.find json_fence (Str.strip text));
      [apply strip_idempotent|].
    destruct (Str.find fence (Str.strip text)); apply strip_idempotent.
  - intros H. apply cleaned_without_fence, contains_strip, H.
Qed.

Lemma startswith_append_long p s t :
  Str.len p <= Str.len s -> Str.startswith p (s +:+ t) = Str.startswith p s.
Proof.
  revert s. induction p as [|c p IH]; intros [|d s] H; try reflexivity.
  - unfold Str.len in H. simpl in H. lia.
  - rewrite append_cons. simpl. rewrite IH; [reflexivity|].
    unfold Str.len in *. simpl in H. lia.
Qed.

(** What follows a text does not move the first match inside it. *)
Lemma find_append sep s t n :
  Str.find sep s = Some n -> Str.find sep (s +:+ t) = Some n.
Proof.
  intros F. destruct (find_some _ _ _ F) as (Hn & Hle & Hmin).
  pose proof (startswith_len _ _ Hn) as Hfit. rewrite len_drop in Hfit.
  apply find_some_intro.
  - rewrite drop_append_le by exact Hle. apply startswith_append_l, Hn.
  - rewrite len_append. lia.
  - intros m Hm. rewrite drop_append_le by lia.
    rewrite startswith_append_long by (rewrite len_drop; lia).
    apply Hmin, Hm.
Qed.

Lemma drop_two_prefixes p q s :
  Str.drop (Str.len p + Str.len q) (p +:+ q +:+ s) = s.
Proof. rewrite <- drop_drop, !drop_append. reflexivity. Qed.

(** X2.  Prose around a fenced block is discarded: when the reply, once
    stripped, shows its first opening fence after some text, an inner
    content, the first closing fence, and then more text without a further
    [```json] tag, the text decoded is the inner content, stripped, and the
    reply is scored as that inner content sent alone. *)
Theorem prose_around_fence_is_discarded w n inquiry_text text
    prefix inner suffix (tagged : bool) :
  let opening := if tagged then json_fence else fence in
  let reply := prefix +:+ opening +:+ inner +:+ fence +:+ suffix in
  Str.strip text = reply ->
  Str.find opening reply = Some (Str.len prefix) ->
  Str.contains json_fence
    (if tagged then inner +:+ fence +:+ suffix else reply) = false ->
  Str.find fence (inner +:+ fence) = Some (Str.len inner) ->
  clean_markdown (Str.strip text) = Ok (Str.strip inner) /\
  score_reply w n inquiry_text (Ok text)
    = score_reply w n inquiry_text (Ok (Str.strip inner)).
Proof.
  intros opening reply Hstrip Hopen Htag Hclose.
  assert (Str.first_part fence (inner +:+ fence +:+ suffix) = inner) as Hinner.
  { unfold Str.first_part. rewrite <- append_assoc.
    rewrite (find_append _ _ _ _ Hclose), append_assoc. apply take_append. }
  assert (cleaned reply = Str.strip inner) as Hclean.
  { unfold cleaned. subst reply opening. destruct tagged.
    - rewrite Hopen, drop_two_prefixes.
      rewrite contains_find in Htag. unfold Str.first_part at 2.
      destruct (Str.find json_fence (inner +:+ fence +:+ suffix));
        [discriminate|].
      rewrite Hinner. reflexivity.
    - rewrite contains_find in Htag.
      destruct (Str.find json_fence
                  (prefix +:+ fence +:+ inner +:+ fence +:+ suffix));
        [discriminate|].
      rewrite Hopen, drop_two_prefixes, Hinner.
      unfold Str.first_part. rewrite (no_fence_inside _ Hclose). reflexivity. }
  assert (clean_markdown (Str.strip text) = Ok (Str.strip inner)) as H1
    by (rewrite Hstrip, clean_markdown_cleaned, Hclean; reflexivity).
  split; [exact H1|].
  unfold score_reply. rewrite H1.
  rewrite strip_idempotent, clean_markdown_cleaned, (cleaned_bare _ Hclose).
  reflexivity.
Qed.

Lemma prose_around_fence_is_discarded_demo :
  clean_markdown (Str.strip chatty_reply) = Ok (object1 "score" "7").
Proof.
  apply (prose_around_fence_is_discarded demo_world 0 "Hello" chatty_reply
           ("Here is my assessment:" +:+ newline)
           (newline +:+ object1 "score" "7" +:+ newline)
           (newline +:+ "Let me know if you need more.") true).
  - vm_compute. reflexivity.
  - vm_compute. reflexivity.
  - vm_compute. reflexivity.
  - vm_compute. reflexivity.
Defined.

Lemma cleanup_hands_on_clean_text_demo :
  clean_markdown (Str.strip ("  plain text" +:+ newline)) = Ok "plain text".
Proof.
  destruct (cleanup_hands_on_clean_text ("  plain text" +:+ newline))
    as (response_text & Hclean & _ & _ & Hsame).
  rewrite Hclean, Hsame; [reflexivity|]. vm_compute. reflexivity.
Defined.

(* ===================================================================== *)
(** * The four kinds of record *)
(* ===================================================================== *)

(** Every call ends in one of four ways: the enriched object, a decode
    failure after a reply, a decode failure raised by the request itself,
    or the generic failure. *)
Lemma score_lead_cases w n inquiry_text :
  let r := score_lead w n inquiry_text in
  (exists text d,
     messages_create w n (request_for w inquiry_text) = Ok text /\
     json_loads w (cleaned (Str.strip text)) = Ok (PDict d) /\
     r = Dict.set
           (Dict.set (Dict.set d "status" (PStr "success")) "original_inquiry"
              (PStr (if 150 <? Str.len inquiry_text
                     then Str.take 150 inquiry_text +:+ "..."
                     else inquiry_text)))
           "timestamp" (PStr (isoformat (datetime_now w n)))) \/
  (exists text msg,
     messages_create w n (request_for w inquiry_text) = Ok text /\
     json_loads w (cleaned (Str.strip text)) = Raise (JSONDecodeError msg) /\
     r = [ ("score", PNone); ("status", PStr "failed");
           ("error", PStr ("JSON parsing error: " +:+ msg));
           ("raw_response", PStr (cleaned (Str.strip text))) ]) \/
  (exists msg,
     messages_create w n (request_for w inquiry_text)
       = Raise (JSONDecodeError msg) /\
     r = [ ("score", PNone); ("status", PStr "failed");
           ("error", PStr ("JSON parsing error: " +:+ msg));
           ("raw_response", PStr "No response") ]) \/
  (exists error,
     r = [ ("score", PNone); ("status", PStr "failed");
           ("error", PStr error);
           ("original_inquiry", PStr (Str.take 150 inquiry_text +:+ "...")) ]).
Proof.
  unfold score_lead, score_reply.
  destruct (messages_create w n (request_for w inquiry_text)) as [text|e].
  - rewrite clean_markdown_cleaned.
    destruct (json_loads w (cleaned (Str.strip text))) as [v|e] eqn:E.
    + destruct v as [| | | | | |d];
        try (right; right; right; eexists; reflexivity).
      left. exists text, d. repeat split; (reflexivity || exact E).
    + destruct e;
        try (right; right; right; eexists; reflexivity).
      right; left. eexists _, _. repeat split; (reflexivity || exact E).
  - destruct e; try (right; right; right; eexists; reflexivity).
    right; right; left. eexists. split; reflexivity.
Qed.


(** X4.  A reply that is valid JSON but not an object (a list, a number, a
    string, [null], a boolean) is not a success: the assignment of the
    status raises [TypeError], and the record is the generic failure with
    that error's message. *)
Theorem non_object_json_is_a_failure w n inquiry_text text response_text v :
  messages_create w n (request_for w inquiry_text) = Ok text ->
  clean_markdown (Str.strip text) = Ok response_text ->
  json_loads w response_text = Ok v ->
  not_object v = true ->
  score_lead w n inquiry_text =
    [ ("score", PNone);
      ("status", PStr "failed");
      ("error",
       PStr match v with
            | PList _ => "list indices must be integers or slices, not str"
            | _ => "'" +:+ type_name v
                   +:+ "' object does not support item assignment"
            end);
      ("original_inquiry", PStr (Str.take 150 inquiry_text +:+ "...")) ].
Proof.
  intros Hreply Hclean Hload Hv. unfold score_lead, score_reply.
  rewrite Hreply, Hclean, Hload. destruct v; try discriminate; reflexivity.
Qed.

(** X5.  Where a failed record shows a [raw_response], it is either the
    words [No response], the request itself having raised the decode error
    before any reply was read, or the stripped, fence-free text that the
    decoder refused. *)
Theorem raw_response_provenance w n inquiry_text v :
  is_success (score_lead w n inquiry_text) = false ->
  Dict.lookup (score_lead w n inquiry_text) "raw_response" = Some v ->
  (v = PStr "No response" /\
   exists msg, messages_create w n (request_for w inquiry_text)
               = Raise (JSONDecodeError msg)) \/
  (exists text response_text msg,
     messages_create w n (request_for w inquiry_text) = Ok text /\
     clean_markdown (Str.strip text) = Ok response_text /\
     json_loads w response_text = Raise (JSONDecodeError msg) /\
     v = PStr response_text /\
     Str.contains fence response_text = false).
Proof.
  intros Hfail Hraw.
  destruct (score_lead_cases w n inquiry_text)
    as [(text & d & Hreply & Hd & Hr)
       |[(text & msg & Hreply & Hd & Hr)
        |[(msg & Hreply & Hr)|(error & Hr)]]].
  - exfalso. assert (is_success (score_lead w n inquiry_text) = true) as Hs.
    { apply success_iff_object. eauto. }
    congruence.
  - right. rewrite Hr in Hraw. injection Hraw as <-.
    exists text, (cleaned (Str.strip text)), msg.
    repeat split; try assumption.
    + apply clean_markdown_cleaned.
    + apply cleaned_no_fence.
  - left. rewrite Hr in Hraw. injection Hraw as <-. eauto.
  - rewrite Hr in Hraw. discriminate.
Qed.

(** X6.  Whatever the path, the [original_inquiry] of a record is a string
    of at most 153 characters that begins with the first 150 characters of
    the inquiry and exceeds the inquiry by at most the three of the
    ellipsis. *)
Theorem original_inquiry_is_bounded w n inquiry_text v :
  Dict.lookup (score_lead w n inquiry_text) "original_inquiry" = Some v ->
  exists shown,
    v = PStr shown /\
    Str.len shown <= 153 /\
    Str.len shown <= Str.len inquiry_text + 3 /\
    Str.startswith (Str.take 150 inquiry_text) shown = true.
Proof.
  intros Hv.
  assert (forall s, Str.startswith s s = true) as Hrefl
    by (intros s; rewrite <- (append_empty_r s) at 2; apply startswith_append).
  assert (let shown := Str.take 150 inquiry_text +:+ "..." in
          Str.len shown <= 153 /\ Str.len shown <= Str.len inquiry_text + 3 /\
          Str.startswith (Str.take 150 inquiry_text) shown = true) as Hcut.
  { cbv zeta. rewrite len_append, len_take. change (Str.len "...") with 3.
    repeat split; [lia|lia|apply startswith_append]. }
  destruct (score_lead_cases w n inquiry_text)
    as [(text & d & _ & _ & Hr)
       |[(text & msg & _ & _ & Hr)
        |[(msg & _ & Hr)|(error & Hr)]]]; rewrite Hr in Hv.
  - rewrite lookup_set_ne in Hv by discriminate. rewrite lookup_set_eq in Hv.
    injection Hv as <-. eexists. split; [reflexivity|].
    destruct (Nat.ltb_spec 150 (Str.len inquiry_text)) as [Hlong|Hshort].
    + exact Hcut.
    + rewrite take_all by lia. repeat split; [lia|lia|apply Hrefl].
  - discriminate.
  - discriminate.
  - injection Hv as <-. eexists. split; [reflexivity|exact Hcut].
Qed.

(** X7.  Every record is either a success, stamped with the time of the
    call, or a failure with a null score, an error message and no
    timestamp. *)
Theorem every_record_has_a_status w n inquiry_text :
  (is_success (score_lead w n inquiry_text) = true /\
   Dict.lookup (score_lead w n inquiry_text) "timestamp"
     = Some (PStr (isoformat (datetime_now w n)))) \/
  (Dict.lookup (score_lead w n inquiry_text) "status" = Some (PStr "failed") /\
   Dict.lookup (score_lead w n inquiry_text) "score" = Some PNone /\
   (exists error,
      Dict.lookup (score_lead w n inquiry_text) "error" = Some (PStr error)) /\
   Dict.lookup (score_lead w n inquiry_text) "timestamp" = None).
Proof.
  destruct (score_lead_cases w n inquiry_text)
    as [(text & d & Hreply & Hd & Hr)
       |[(text & msg & _ & _ & Hr)
        |[(msg & _ & Hr)|(error & Hr)]]].
  - left. split; [apply success_iff_object; eauto|].
    rewrite Hr. apply lookup_set_eq.
  - right. rewrite Hr. repeat split; eauto.
  - right. rewrite Hr. repeat split; eauto.
  - right. rewrite Hr. repeat split; eauto.
Qed.

(* ===================================================================== *)
(** * Whatever the scores are *)
(* ===================================================================== *)

Section Bands.
Implicit Types (x : Num.num) (r : dict) (l : list dict).

Lemma py_compare_numbers op a b x y :
  Num.of_py a = Some x -> Num.of_py b = Some y ->
  py_compare op a b = Ok (op_holds op (Num.compare x y)).
Proof.
  destruct a, b; simpl; try discriminate; intros [= <-] [= <-]; reflexivity.
Qed.

Lemma compare_flip x k :
  Num.compare (Num.NInt k) x = CompOpp <$> Num.compare x (Num.NInt k).
Proof.
  destruct x as [z|f]; simpl.
  - rewrite (Z.compare_antisym k z), CompOpp_involutive. reflexivity.
  - destruct (Num.cmp_int_float k f) as [[]|]; reflexivity.
Qed.

Lemma cmp_int_float_above f :
  Num.cmp_int_float 4 f = Some Gt -> Num.cmp_int_float 7 f = Some Gt.
Proof.
  destruct f as [s|s| |s m e]; unfold Num.cmp_int_float.
  - intros _. reflexivity.
  - destruct s; congruence.
  - discriminate.
  - cbv zeta. generalize (if s then Z.neg m else Z.pos m). intros v H.
    destruct e as [|p|p].
    + assert ((4 ?= v * 2 ^ 0)%Z = Gt) as H' by congruence.
      f_equal. apply Z.compare_gt_iff. apply -> Z.compare_gt_iff in H'. lia.
    + assert ((4 ?= v * 2 ^ Z.pos p)%Z = Gt) as H' by congruence.
      f_equal. apply Z.compare_gt_iff. apply -> Z.compare_gt_iff in H'. lia.
    + assert ((4 * 2 ^ Z.pos p ?= v)%Z = Gt) as H' by congruence.
      assert (0 < 2 ^ Z.pos p)%Z by (apply Z.pow_pos_nonneg; lia).
      f_equal. apply Z.compare_gt_iff. apply -> Z.compare_gt_iff in H'. lia.
Qed.

Lemma below_4_below_7 x :
  Num.compare x (Num.NInt 4) = Some Lt -> Num.compare x (Num.NInt 7) = Some Lt.
Proof.
  destruct x as [z|f]; simpl.
  - intros H. assert ((z ?= 4)%Z = Lt) as H' by congruence.
    f_equal. apply Z.compare_lt_iff. apply -> Z.compare_lt_iff in H'. lia.
  - destruct (Num.cmp_int_float 4 f) as [[]|] eqn:E; try discriminate.
    intros _. rewrite (cmp_int_float_above _ E). reflexivity.
Qed.

Lemma compared_unless_nan x k :
  x <> Num.NFloat S754_nan -> Num.compare x (Num.NInt k) <> None.
Proof.
  destruct x as [z|f]; [discriminate|]. intros Hnan.
  destruct f as [s|s| |s m e]; unfold Num.compare, Num.cmp_int_float.
  - discriminate.
  - destruct s; discriminate.
  - congruence.
  - discriminate.
Qed.

(** A score falls in one band at most, and in one exactly unless it is
    NaN. *)
Lemma one_band_at_most r bh bw bc :
  is_hot r = Ok bh -> is_warm r = Ok bw -> is_cold r = Ok bc ->
  (Z.b2z bh + Z.b2z bw + Z.b2z bc <= 1)%Z /\
  (nan_score r = false -> (Z.b2z bh + Z.b2z bw + Z.b2z bc = 1)%Z).
Proof.
  unfold is_hot, is_warm, is_cold, nan_score.
  destruct (Num.of_py (score_or_0 r)) as [x|] eqn:Hx;
    [|destruct (score_or_0 r); discriminate].
  rewrite (py_compare_numbers OpGe _ (PInt 7) x (Num.NInt 7) Hx eq_refl),
          (py_compare_numbers OpLe (PInt 4) _ (Num.NInt 4) x eq_refl Hx),
          (py_compare_numbers OpLt _ (PInt 7) x (Num.NInt 7) Hx eq_refl),
          (py_compare_numbers OpLt _ (PInt 4) x (Num.NInt 4) Hx eq_refl).
  rewrite compare_flip. cbn [mbind except_mbind except_bind].
  pose proof (below_4_below_7 x) as Hmono.
  pose proof (compared_unless_nan x 7) as H7.
  pose proof (compared_unless_nan x 4) as H4.
  assert (nan_free : match score_or_0 r with
                     | PFloat S754_nan => true
                     | _ => false
                     end = false -> x <> Num.NFloat S754_nan).
  { destruct (score_or_0 r) as [| | |f| | |]; try discriminate;
      simpl in Hx; injection Hx as <-; try discriminate.
    destruct f; (discriminate || congruence). }
  destruct (Num.compare x (Num.NInt 7)) as [[]|];
    destruct (Num.compare x (Num.NInt 4)) as [[]|]; simpl;
    intros [= <-] [= <-] [= <-]; simpl;
    try (specialize (Hmono eq_refl); discriminate);
    (split; [lia|]); intros Hnan; specialize (nan_free Hnan);
    try reflexivity;
    try (exfalso; apply (H7 nan_free); reflexivity);
    try (exfalso; apply (H4 nan_free); reflexivity).
Qed.

Lemma band_counts_bounded l : forall h w c,
  count_if is_hot l = Ok h -> count_if is_warm l = Ok w ->
  count_if is_cold l = Ok c ->
  (h + w + c <= len l)%Z /\
  (Forall (fun r => nan_score r = false) l -> (h + w + c = len l)%Z).
Proof.
  unfold len. induction l as [|r l IH]; intros h w c Hh Hw Hc; simpl in *.
  - injection Hh as <-. injection Hw as <-. injection Hc as <-.
    split; [lia|reflexivity].
  - destruct (is_hot r) as [bh|] eqn:Eh; [|discriminate].
    destruct (is_warm r) as [bw|] eqn:Ew; [|discriminate].
    destruct (is_cold r) as [bc|] eqn:Ec; [|discriminate].
    cbn [mbind except_mbind except_bind] in *.
    destruct (count_if is_hot l) as [h'|]; [|discriminate].
    destruct (count_if is_warm l) as [w'|]; [|discriminate].
    destruct (count_if is_cold l) as [c'|]; [|discriminate].
    cbn [mbind except_mbind except_bind] in *.
    injection Hh as <-. injection Hw as <-. injection Hc as <-.
    destruct (IH h' w' c' eq_refl eq_refl eq_refl) as [Hle Heq].
    destruct (one_band_at_most r bh bw bc Eh Ew Ec) as [H1 H2].
    split.
    + destruct bh, bw, bc; simpl in *; lia.
    + intros Hall. apply Forall_cons in Hall as [Hr Hl].
      specialize (H2 Hr). specialize (Heq Hl).
      destruct bh, bw, bc; simpl in *; lia.
Qed.

End Bands.

(** What a returned batch is made of, read off the body of
    [score_multiple_leads]. *)
Lemma returned_batch w n inquiry_list batch :
  score_multiple_leads w n inquiry_list = Ok batch ->
  exists average,
    sort_reverse score_or_0 (successes w n inquiry_list)
      = Ok (sorted_by_priority batch) /\
    count_if is_hot (sorted_by_priority batch)
      = Ok (hot_leads_count (analytics batch)) /\
    count_if is_warm (sorted_by_priority batch)
      = Ok (warm_leads_count (analytics batch)) /\
    count_if is_cold (sorted_by_priority batch)
      = Ok (cold_leads_count (analytics batch)) /\
    batch = {| all_results := results_of w n inquiry_list;
               sorted_by_priority := sorted_by_priority batch;
               analytics :=
                 {| total_leads := len (results_of w n inquiry_list);
                    scored_successfully := len (sorted_by_priority batch);
                    hot_leads_count := hot_leads_count (analytics batch);
                    warm_leads_count := warm_leads_count (analytics batch);
                    cold_leads_count := cold_leads_count (analytics batch);
                    average_score := average |} |}.
Proof.
  unfold score_multiple_leads. rewrite score_each_results, app_nil_l.
  fold (successes w n inquiry_list).
  destruct (sort_reverse score_or_0 (successes w n inquiry_list))
    as [sorted|]; [|discriminate].
  cbn [mbind except_mbind except_bind].
  destruct (count_if is_hot sorted) as [hot|] eqn:Hh; [|discriminate].
  destruct (count_if is_warm sorted) as [warm|] eqn:Hw; [|discriminate].
  destruct (count_if is_cold sorted) as [cold|] eqn:Hc; [|discriminate].
  cbn [mbind except_mbind except_bind].
  match goal with
  | |- context [except_bind _ ?m] => destruct m as [average|]; [|discriminate]
  | |- context [mbind _ ?m] => destruct m as [average|]; [|discriminate]
  end.
  cbn [mbind except_mbind except_bind]. intros [= <-]. exists average.
  cbn [sorted_by_priority analytics hot_leads_count warm_leads_count
       cold_leads_count].
  repeat split; assumption.
Qed.

(** X8.  Whenever the batch scorer returns, whatever the scores are: the
    results are those of the inquiries in input order, [total_leads] counts
    the inquiries, [sorted_by_priority] is a rearrangement of the
    successful results, [scored_successfully] counts them and never
    exceeds [total_leads]. *)
Theorem returned_batch_accounts_for_every_inquiry w n inquiry_list batch :
  score_multiple_leads w n inquiry_list = Ok batch ->
  all_results batch = results_of w n inquiry_list /\
  total_leads (analytics batch) = len inquiry_list /\
  sorted_by_priority batch ≡ₚ successes w n inquiry_list /\
  scored_successfully (analytics batch) = len (successes w n inquiry_list) /\
  (0 <= scored_successfully (analytics batch) <= total_leads (analytics batch))%Z.
Proof.
  intros H. destruct (returned_batch _ _ _ _ H) as (average & Hsort & _ & _ & _ & Hb).
  apply sort_reverse_perm in Hsort.
  assert (len (sorted_by_priority batch) = len (successes w n inquiry_list))
    as Hlen by (unfold len; rewrite (Permutation_length Hsort); reflexivity).
  rewrite Hb. cbn [all_results sorted_by_priority analytics total_leads
                   scored_successfully].
  repeat split.
  - unfold len. rewrite results_of_length. reflexivity.
  - exact Hsort.
  - exact Hlen.
  - unfold len. lia.
  - rewrite Hlen. unfold len, successes.
    pose proof (List.filter_length_le is_success (results_of w n inquiry_list)).
    lia.
Qed.

(** X9.  Whenever the batch scorer returns, no successful result is
    counted in two bands: the three counts add up to at most
    [scored_successfully], and to exactly that unless the score of some
    successful result is NaN.  This holds for integer, boolean and float
    scores alike. *)
Theorem bands_never_overlap w n inquiry_list batch :
  score_multiple_leads w n inquiry_list = Ok batch ->
  (hot_leads_count (analytics batch) + warm_leads_count (analytics batch)
   + cold_leads_count (analytics batch)
   <= scored_successfully (analytics batch))%Z /\
  (Forall (fun r => nan_score r = false) (successes w n inquiry_list) ->
   (hot_leads_count (analytics batch) + warm_leads_count (analytics batch)
    + cold_leads_count (analytics batch)
    = scored_successfully (analytics batch))%Z).
Proof.
  intros H.
  destruct (returned_batch _ _ _ _ H) as (average & Hsort & Hh & Hw & Hc & Hb).
  apply sort_reverse_perm in Hsort.
  destruct (band_counts_bounded _ _ _ _ Hh Hw Hc) as [Hle Heq].
  assert (scored_successfully (analytics batch) = len (sorted_by_priority batch))
    as -> by (rewrite Hb at 1; reflexivity).
  split; [exact Hle|]. intros Hnan. apply Heq. rewrite Hsort. exact Hnan.
Qed.

(** X10.  With no successful result at all (an empty list of inquiries, or
    nothing but failures) the batch scorer returns: nothing is sorted, the
    counts are 0, and the average is the [int] 0, no division taking
    place. *)
Theorem no_success_no_division w n inquiry_list :
  successes w n inquiry_list = [] ->
  score_multiple_leads w n inquiry_list =
    Ok {| all_results := results_of w n inquiry_list;
          sorted_by_priority := [];
          analytics := {| total_leads := len inquiry_list;
                          scored_successfully := 0;
                          hot_leads_count := 0;
                          warm_leads_count := 0;
                          cold_leads_count := 0;
                          average_score := PInt 0 |} |}.
Proof.
  intros H. unfold score_multiple_leads.
  rewrite score_each_results, app_nil_l. fold (successes w n inquiry_list).
  rewrite H. simpl. unfold len. rewrite results_of_length. reflexivity.
Qed.

(* ===================================================================== *)
(** * File names and the clock *)
(* ===================================================================== *)

Lemma valid_datetime_bounds t :
  valid_datetime t = true ->
  (year t < 10000 /\ month t < 100 /\ day t < 100 /\ hour t < 100 /\
   minute t < 100 /\ second t < 100)%N.
Proof.
  unfold valid_datetime. rewrite !andb_true_iff, !N.leb_le. lia.
Qed.

(** The digits of a derived name spell the reading they were made from. *)
Lemma read_derived_name_of t :
  valid_datetime t = true -> read_derived_name (derived_name t) = to_the_second t.
Proof.
  intros Hvalid. apply valid_datetime_bounds in Hvalid.
  destruct t as [y mo d h mi s us]. cbn [year month day hour minute second] in Hvalid.
  destruct Hvalid as (Hy & Hmo & Hd & Hh & Hmi & Hs).
  unfold read_derived_name, read_field, derived_name, strftime_Ymd_HMS,
    to_the_second, Str.pad4, Str.pad2, Str.digit.
  cbn [year month day hour minute second microsecond].
  cbv -[N.add N.mul N.sub N.div N.modulo ascii_of_N N_of_ascii].
  rewrite !N_ascii_embedding by n_arith.
  f_equal; n_arith.
Qed.

Lemma derived_name_same_second t1 t2 :
  valid_datetime t1 = true -> valid_datetime t2 = true ->
  derived_name t1 = derived_name t2 <-> same_second t1 t2 = true.
Proof.
  intros H1 H2. split.
  - intros Hname.
    assert (to_the_second t1 = to_the_second t2) as Heq
      by (rewrite <- !read_derived_name_of, Hname by assumption; reflexivity).
    unfold to_the_second in Heq. injection Heq as Hy Hmo Hd Hh Hmi Hs.
    unfold same_second. rewrite Hy, Hmo, Hd, Hh, Hmi, Hs, !N.eqb_refl.
    reflexivity.
  - destruct t1, t2. unfold same_second, derived_name, strftime_Ymd_HMS.
    cbn [year month day hour minute second].
    rewrite !andb_true_iff, !N.eqb_eq.
    intros (((((-> & ->) & ->) & ->) & ->) & ->). reflexivity.
Qed.

(** C8.  [save_lead_scores] settles on one file name: the name given, or,
    without one, a name of the pattern [lead_scores_<YYYYMMDD_HHMMSS>.json]
    whose digits read back as the year, month, day, hour, minute and second
    of the clock at that moment.  When that file opens, the function
    returns this very name, and it is the name under which the serialised
    results are then found, every other file being left as it was; when it
    does not open, the [OSError] goes to the caller.  (The year is taken to
    have four digits, as every reading of a running clock has.) *)
Theorem save_returns_name_written w n fs scoring_results filename :
  valid_datetime (datetime_now w n) = true ->
  (1000 <=? year (datetime_now w n))%N = true ->
  exists name,
    match filename with
    | Some given => name = given
    | None =>
        derived_name_pattern name = true /\
        read_derived_name name = to_the_second (datetime_now w n)
    end /\
    match open_w w fs name with
    | None =>
        exists fs',
          save_lead_scores w n fs scoring_results filename = Ok (name, fs') /\
          fs' !! name = Some (json_dumps w scoring_results) /\
          (forall other, other <> name -> fs' !! other = fs !! other)
    | Some msg =>
        save_lead_scores w n fs scoring_results filename = Raise (OSError msg)
    end.
Proof.
  intros Hvalid _.
  assert (forall name,
            match open_w w fs name with
            | Some msg => Raise (OSError msg)
            | None => Ok (name, <[name := json_dumps w scoring_results]> fs)
            end = save_lead_scores w n fs scoring_results (Some name)) as Hgiven
    by reflexivity.
  destruct filename as [given|].
  - exists given. split; [reflexivity|]. rewrite <- Hgiven.
    destruct (open_w w fs given) as [msg|]; [reflexivity|].
    eexists. split; [reflexivity|]. split; [apply lookup_insert_eq|].
    intros other Hne. apply lookup_insert_ne. congruence.
  - exists (derived_name (datetime_now w n)). split.
    + split; [apply derived_name_matches|apply read_derived_name_of, Hvalid].
    + unfold save_lead_scores. fold (derived_name (datetime_now w n)).
      destruct (open_w w fs (derived_name (datetime_now w n))) as [msg|];
        [reflexivity|].
      eexists. split; [reflexivity|]. split; [apply lookup_insert_eq|].
      intros other Hne. apply lookup_insert_ne. congruence.
Qed.


Lemma save_without_name w n fs scoring_results name fs' :
  save_lead_scores w n fs scoring_results None = Ok (name, fs') ->
  name = derived_name (datetime_now w n) /\
  fs' = <[name := json_dumps w scoring_results]> fs.
Proof.
  unfold save_lead_scores. fold (derived_name (datetime_now w n)).
  destruct (open_w w fs (derived_name (datetime_now w n))); [discriminate|].
  intros [= <- <-]. split; reflexivity.
Qed.

(** X12.  Two saves without a file name collide exactly when their clock
    readings fall in the same second: the second save then replaces the
    first file.  Otherwise both files are there afterwards, each with its
    own contents. *)
Theorem saves_in_the_same_second_collide w n1 n2 fs first second
    name1 fs1 name2 fs2 :
  valid_datetime (datetime_now w n1) = true ->
  valid_datetime (datetime_now w n2) = true ->
  save_lead_scores w n1 fs first None = Ok (name1, fs1) ->
  save_lead_scores w n2 fs1 second None = Ok (name2, fs2) ->
  (name1 = name2 <->
   same_second (datetime_now w n1) (datetime_now w n2) = true) /\
  (name1 = name2 -> fs2 !! name1 = Some (json_dumps w second)) /\
  (name1 <> name2 ->
   fs2 !! name1 = Some (json_dumps w first) /\
   fs2 !! name2 = Some (json_dumps w second)).
Proof.
  intros Hv1 Hv2 Hs1 Hs2.
  apply save_without_name in Hs1 as [Hn1 ->].
  apply save_without_name in Hs2 as [Hn2 ->].
  repeat split.
  - intros Heq. rewrite Hn1, Hn2 in Heq.
    apply (derived_name_same_second _ _ Hv1 Hv2), Heq.
  - intros Hsame. rewrite Hn1, Hn2.
    apply (derived_name_same_second _ _ Hv1 Hv2), Hsame.
  - intros ->. apply lookup_insert_eq.
  - rewrite lookup_insert_ne by congruence. apply lookup_insert_eq.
  - apply lookup_insert_eq.
Qed.

(** X14.  On results of the data model, the first entry of
    [sorted_by_priority], which the harness presents as the hottest lead,
    is a successful result whose score no other successful result exceeds,
    and among those of that score it is the one that came first in the
    input. *)
Theorem top_lead_is_first_among_best w n inquiry_list average :
  Forall (fun r => score_absent_or_int r = true) (successes w n inquiry_list) ->
  mean_score (successes w n inquiry_list) = Ok average ->
  exists batch,
    score_multiple_leads w n inquiry_list = Ok batch /\
    forall top rest, sorted_by_priority batch = top :: rest ->
      is_success top = true /\
      Forall (fun r => (int_score r <= int_score top)%Z)
        (successes w n inquiry_list) /\
      exists later,
        with_score (int_score top) (successes w n inquiry_list) = top :: later.
Proof.
  intros Hint Hmean. eexists.
  split; [apply (batch_on_int_scores _ _ _ _ Hint Hmean)|].
  cbn [sorted_by_priority]. intros top rest Hsorted.
  pose proof (sort_by_score_perm (successes w n inquiry_list)) as Hperm.
  pose proof (sort_by_score_sorted (successes w n inquiry_list)) as Hdesc.
  pose proof (sort_by_score_stable (int_score top) (successes w n inquiry_list))
    as Hstable.
  rewrite Hsorted in Hperm, Hdesc, Hstable.
  apply StronglySorted_inv in Hdesc as [_ Hrest].
  repeat split.
  - assert (In top (successes w n inquiry_list)) as Hin
      by (eapply Permutation_in; [exact Hperm|left; reflexivity]).
    apply List.filter_In in Hin. apply Hin.
  - rewrite <- Hperm. constructor; [lia|].
    eapply Forall_impl; [exact Hrest|]. intros r Hr. exact Hr.
  - exists (with_score (int_score top) rest). rewrite <- Hstable.
    unfold with_score. simpl. rewrite Z.eqb_refl. reflexivity.
Qed.

(* ===================================================================== *)
(** * More of the module at work *)
(* ===================================================================== *)


Lemma non_object_json_is_a_failure_demo :
  Dict.lookup (score_lead failing_world 2 "Call me") "error"
    = Some (PStr "list indices must be integers or slices, not str").
Proof.
  rewrite (non_object_json_is_a_failure failing_world 2 "Call me" "[1, 2, 3]"
             "[1, 2, 3]" (PList [PInt 1; PInt 2; PInt 3])).
  - reflexivity.
  - vm_compute. reflexivity.
  - vm_compute. reflexivity.
  - vm_compute. reflexivity.
  - reflexivity.
Defined.

Lemma raw_response_provenance_demo :
  (PStr "No response" = PStr "No response" /\
   exists msg, messages_create failing_world 3 (request_for failing_world "Call me")
               = Raise (JSONDecodeError msg)) \/
  (exists text response_text msg,
     messages_create failing_world 3 (request_for failing_world "Call me")
       = Ok text /\
     clean_markdown (Str.strip text) = Ok response_text /\
     json_loads failing_world response_text = Raise (JSONDecodeError msg) /\
     PStr "No response" = PStr response_text /\
     Str.contains fence response_text = false).
Proof.
  apply (raw_response_provenance failing_world 3 "Call me").
  - vm_compute. reflexivity.
  - vm_compute. reflexivity.
Defined.

Lemma original_inquiry_is_bounded_demo :
  exists shown,
    PStr (Str.take 150 long_inquiry +:+ "...") = PStr shown /\
    Str.len shown <= 153 /\
    Str.len shown <= Str.len long_inquiry + 3 /\
    Str.startswith (Str.take 150 long_inquiry) shown = true.
Proof.
  apply (original_inquiry_is_bounded failing_world 0 long_inquiry).
  vm_compute. reflexivity.
Defined.

Lemma returned_batch_accounts_for_every_inquiry_demo :
  exists batch,
    score_multiple_leads mixed_world 0 demo_inquiries = Ok batch /\
    total_leads (analytics batch) = 5%Z /\
    scored_successfully (analytics batch) = 5%Z.
Proof.
  destruct (score_multiple_leads mixed_world 0 demo_inquiries)
    as [batch|e] eqn:E; [|vm_compute in E; discriminate].
  destruct (returned_batch_accounts_for_every_inquiry _ _ _ _ E)
    as (_ & Htotal & _ & Hscored & _).
  exists batch. split; [reflexivity|]. split.
  - rewrite Htotal. reflexivity.
  - rewrite Hscored. vm_compute. reflexivity.
Defined.

Lemma bands_never_overlap_demo :
  (exists batch,
     score_multiple_leads mixed_world 0 demo_inquiries = Ok batch /\
     (hot_leads_count (analytics batch) + warm_leads_count (analytics batch)
      + cold_leads_count (analytics batch)
      <= scored_successfully (analytics batch))%Z) /\
  (exists batch,
     score_multiple_leads demo_world 0 demo_inquiries = Ok batch /\
     (hot_leads_count (analytics batch) + warm_leads_count (analytics batch)
      + cold_leads_count (analytics batch)
      = scored_successfully (analytics batch))%Z).
Proof.
  split.
  - destruct (score_multiple_leads mixed_world 0 demo_inquiries)
      as [batch|e] eqn:E; [|vm_compute in E; discriminate].
    exists batch. split; [reflexivity|].
    apply (bands_never_overlap _ _ _ _ E).
  - destruct (score_multiple_leads demo_world 0 demo_inquiries)
      as [batch|e] eqn:E; [|vm_compute in E; discriminate].
    exists batch. split; [reflexivity|].
    apply (bands_never_overlap _ _ _ _ E).
    vm_compute. repeat constructor.
Defined.

Lemma no_success_no_division_demo :
  exists batch,
    score_multiple_leads failing_world 0 ["a"; "b"; "c"; "d"] = Ok batch /\
    average_score (analytics batch) = PInt 0 /\
    total_leads (analytics batch) = 4%Z.
Proof.
  eexists. split.
  - apply (no_success_no_division failing_world 0 ["a"; "b"; "c"; "d"]).
    vm_compute. reflexivity.
  - split; reflexivity.
Defined.


Lemma saves_in_the_same_second_collide_demo :
  let w := sample_world ∅ [] in
  exists name fs1 fs2,
    save_lead_scores w 3 ∅ (PInt 1) None = Ok (name, fs1) /\
    save_lead_scores w 3 fs1 (PInt 2) None = Ok (name, fs2) /\
    fs2 !! name = Some (json_dumps w (PInt 2)).
Proof.
  intros w.
  destruct (save_lead_scores w 3 ∅ (PInt 1) None) as [[name1 fs1]|e] eqn:E1;
    [|vm_compute in E1; discriminate].
  destruct (save_lead_scores w 3 fs1 (PInt 2) None) as [[name2 fs2]|e] eqn:E2;
    [|apply save_without_name in E1 as [_ ->]; vm_compute in E2; discriminate].
  destruct (saves_in_the_same_second_collide w 3 3 ∅ (PInt 1) (PInt 2)
              name1 fs1 name2 fs2) as (Hiff & Hsame & _);
    [vm_compute; reflexivity|vm_compute; reflexivity|exact E1|exact E2|].
  assert (name1 = name2) as Hname by (apply Hiff; vm_compute; reflexivity).
  subst name2. exists name1, fs1, fs2.
  split; [reflexivity|]. split; [exact E2|]. apply Hsame. reflexivity.
Defined.

Lemma top_lead_is_first_among_best_demo :
  exists batch,
    score_multiple_leads demo_world 0 demo_inquiries = Ok batch /\
    exists top rest,
      sorted_by_priority batch = top :: rest /\ int_score top = 9%Z.
Proof.
  destruct (top_lead_is_first_among_best demo_world 0 demo_inquiries
              (PFloat (S754_finite false 5629499534213120 (-50))))
    as (batch & Hb & _).
  - vm_compute. repeat constructor.
  - vm_compute. reflexivity.
  - exists batch. split; [exact Hb|].
    vm_compute in Hb. injection Hb as <-. eexists _, _. split; reflexivity.
Defined.

Lemma save_returns_name_written_demo :
  exists fs',
    save_lead_scores demo_world 3 ∅ PNone None
      = Ok ("lead_scores_20261104_093003.json", fs') /\
    fs' !! "lead_scores_20261104_093003.json" = Some "{}".
Proof.
  destruct (save_returns_name_written demo_world 3 ∅ PNone None)
    as (name & [Hpattern Hread] & Hopen).
  - vm_compute. reflexivity.
  - vm_compute. reflexivity.
  - destruct name as [|c name]; [vm_compute in Hpattern; discriminate|].
    cbn [open_w demo_world sample_world] in Hopen.
    destruct Hopen as (fs' & Hsave & Hfile & _).
    assert (String c name = "lead_scores_20261104_093003.json") as Hname.
    { pose proof (f_equal (fun r : except (string * gmap string string) =>
                             match r with
                             | Ok (used, _) => used
                             | Raise _ => EmptyString
                             end) Hsave) as Hused.
      vm_compute in Hused. symmetry. exact Hused. }
    rewrite Hname in Hsave, Hfile. exists fs'. split; [exact Hsave|exact Hfile].
Defined.
